(** * LightHandler: mode state machine, tick scheduler, door fade-back

    Shallow embedding of [setupLightHandler]
    (src/server/mainServer/LightController/LightHandler.ts).

    The closure variables of [setupLightHandler] become the fields of
    [State]; every handler registered there becomes a function from a
    state to a new state and the list of outward effects it performs
    (device writes, broadcasts, persistence, log lines).  Timers are
    pending flags in the state, and a timer that fires is an [Event]
    that is enabled only while the flag is set.

    Interleaving.  The JavaScript run-time is single threaded: a
    handler runs until it awaits.  The sleeps of [onConnect] are timers,
    so other events are handled between them: [onConnect] is modelled
    in stages ([ConnectBegin], then one [IntroWake] per sleep), and
    [Connect] is the sequence during whose sleeps nothing else happens.
    Because the last stage calls [tick()] without looking at the
    variable [timeout], a timer that the variable no longer refers to
    can stay pending; such timers are counted in [orphans].  The driver
    of the device is not among the sources; a device write that a
    handler awaits is taken to be complete before the next event is
    handled.

    Numbers.  The channels held in [State] are integers.  What the
    source does with the other JavaScript numbers (fractions, NaN, the
    infinities) where it matters, in [clamp] and in the fade-back, is
    modelled beside it by [JsNumber], [clamp_js] and [fade_cursor_js],
    which agree with the integer model on integers.  The messages are
    those of authenticated clients: [validateAuthentication] is not
    among the sources. *)

From Stdlib Require Import ZArith QArith Qround String List Bool Lia.
Import ListNotations.

Local Open Scope Z_scope.
Local Open Scope string_scope.
Local Open Scope list_scope.

(** ** Constants *)

(** Modelled from the spec: [SECOND] of shared/constants is not among the
    sources; the spec gives a frame interval of 50 ms for
    [SECOND * 0.05] and ten seconds for [SECOND * 10]. *)
Definition SECOND : Z := 1000.

(** [SECOND * 0.05] *)
Definition SERVER_FPS : Z := SECOND * 5 / 100.

(** ** Data *)

(** [ControllerMode] is a union of string literals; a mode that arrives
    from a client is whatever string the client sent. *)
Definition ControllerMode := string.

Record RGB : Type := mkRGB { r : Z; g : Z; b : Z }.

Definition white : RGB := mkRGB 255 255 255.
Definition black : RGB := mkRGB 0 0 0.

Definition rgb_eqb (x y : RGB) : bool :=
  (r x =? r y)%Z && (g x =? g y)%Z && (b x =? b y)%Z.

(** What a handler does to the outside world, in program order. *)
Inductive Effect : Type :=
| SetRGB (red green blue : Z)                       (* light.setRGB *)
| SetIfPossible (red green blue : Z) (value : bool) (* light.setIfPossible and its answer *)
| BroadcastMode (mode : ControllerMode)             (* websocket.broadcast("mode-update", _) *)
| BroadcastRGB (rgb : RGB)                          (* websocket.broadcast("rgb-update", _) *)
| SaveSettings                                      (* saveSettings() *)
| LogLagging                                        (* Logger.debug("Server is lagging!") *)
| Rejected (message : string).                      (* the Error a handler fails with *)

Definition is_device_write (e : Effect) : bool :=
  match e with
  | SetRGB _ _ _ | SetIfPossible _ _ _ _ => true
  | _ => false
  end.

Definition device_writes (es : list Effect) : list Effect :=
  filter is_device_write es.

(** The closure state of [setupLightHandler]. *)
Record State : Type := mkState {
  lightMode : ControllerMode;
  lastMode : ControllerMode;
  controllerMode : ControllerMode;   (* settings.controllerMode *)
  target : RGB;                      (* the object RGB *)
  lastRGB : RGB;
  timeout : option Z;                (* delay of the pending setTimeout(tick, _) *)
  de_pending : bool;                 (* the debounced [de] waits for its trailing edge *)
  doorFrameLoop : option RGB;        (* the running interval, with its cursor r, g, b *)
  connecting : list nat;             (* the calls of onConnect that sleep, each with
                                        the number of sleeps it has finished *)
  orphans : nat                      (* pending timers of [tick] that the variable
                                        [timeout] does not refer to *)
}.

Definition with_lightMode (m : ControllerMode) (s : State) : State :=
  mkState m (lastMode s) (controllerMode s) (target s) (lastRGB s)
          (timeout s) (de_pending s) (doorFrameLoop s) (connecting s) (orphans s).

Definition with_modes (m : ControllerMode) (s : State) : State :=
  mkState m m m (target s) (lastRGB s)
          (timeout s) (de_pending s) (doorFrameLoop s) (connecting s) (orphans s).

Definition with_target (c : RGB) (s : State) : State :=
  mkState (lightMode s) (lastMode s) (controllerMode s) c (lastRGB s)
          (timeout s) (de_pending s) (doorFrameLoop s) (connecting s) (orphans s).

Definition with_lastRGB (c : RGB) (s : State) : State :=
  mkState (lightMode s) (lastMode s) (controllerMode s) (target s) c
          (timeout s) (de_pending s) (doorFrameLoop s) (connecting s) (orphans s).

Definition with_timeout (t : option Z) (s : State) : State :=
  mkState (lightMode s) (lastMode s) (controllerMode s) (target s) (lastRGB s)
          t (de_pending s) (doorFrameLoop s) (connecting s) (orphans s).

Definition with_de_pending (p : bool) (s : State) : State :=
  mkState (lightMode s) (lastMode s) (controllerMode s) (target s) (lastRGB s)
          (timeout s) p (doorFrameLoop s) (connecting s) (orphans s).

Definition with_doorFrameLoop (l : option RGB) (s : State) : State :=
  mkState (lightMode s) (lastMode s) (controllerMode s) (target s) (lastRGB s)
          (timeout s) (de_pending s) l (connecting s) (orphans s).

Definition with_connecting (l : list nat) (s : State) : State :=
  mkState (lightMode s) (lastMode s) (controllerMode s) (target s) (lastRGB s)
          (timeout s) (de_pending s) (doorFrameLoop s) l (orphans s).

Definition with_orphans (n : nat) (s : State) : State :=
  mkState (lightMode s) (lastMode s) (controllerMode s) (target s) (lastRGB s)
          (timeout s) (de_pending s) (doorFrameLoop s) (connecting s) n.

(** The state right after [setupLightHandler] has initialised its
    variables, for the mode found in the settings. *)
Definition init (settingsMode : ControllerMode) : State :=
  mkState settingsMode settingsMode settingsMode black white None false None
          [] 0%nat.

(** A handler returns the new state and what it did. *)
Definition Handler : Type := State -> State * list Effect.

(** A handler that may throw. *)
Inductive Result : Type :=
| Ok (s : State) (es : list Effect)
| Throw (message : string).

(** ** The door fade-back: [de] and its interval *)

(** [if (doorFrameLoop) { clearInterval(doorFrameLoop); doorFrameLoop = undefined }]
    and the same with [clearTimeout]. *)
Definition clearDoorFrameLoop (s : State) : State :=
  with_doorFrameLoop None s.

(** [de.cancel()] *)
Definition de_cancel (s : State) : State := with_de_pending false s.

(** [updateModeAndLight(rgb)] *)
Definition updateModeAndLight (rgb : RGB) (s : State) : list Effect :=
  [BroadcastMode (lightMode s); BroadcastRGB rgb].

(** The body of the debounced function when its trailing edge fires:
    clear a running interval, start a new one whose cursor is white. *)
Definition de_fire (s : State) : State :=
  with_doorFrameLoop (Some white) (clearDoorFrameLoop (with_de_pending false s)).

(** One run of the interval callback, for the cursor [c] of the running
    interval.  The test that ends the animation is the source's:
    [r === RGB.r && b === RGB.b && b === RGB.b]. *)
Definition fade_cursor (c t : RGB) : RGB :=
  mkRGB (if (r c >? r t)%Z then r c - 1 else r c)
        (if (g c >? g t)%Z then g c - 1 else g c)
        (if (b c >? b t)%Z then b c - 1 else b c).

Definition fade_done (c t : RGB) : bool :=
  (r c =? r t)%Z && (b c =? b t)%Z && (b c =? b t)%Z.

Definition fade_frame (c : RGB) : Handler := fun s =>
  let c' := fade_cursor c (target s) in
  let s1 :=
    if fade_done c' (target s)
    then with_doorFrameLoop None (with_lightMode (lastMode s) s)
    else with_doorFrameLoop (Some c') s in
  (s1, SetRGB (r c') (g c') (b c') :: updateModeAndLight (target s1) s1).

(** ** [setMode] *)

Definition settable_modes : list ControllerMode :=
  ["AutoPilot"; "Manual"; "Pattern"; "Audio"; "AudioRaw"; "ManualForce";
   "ManualLocked"].

(** The eight values of the type [ControllerMode]. *)
Definition all_modes : list ControllerMode := settable_modes ++ ["Door"].

Definition is_settable (mode : ControllerMode) : bool :=
  existsb (String.eqb mode) settable_modes.

Definition setMode (mode : ControllerMode) (s : State) : Result :=
  if is_settable mode then
    let diff := negb (lightMode s =? mode) in
    let s1 := with_modes mode s in
    let s2 := de_cancel (clearDoorFrameLoop s1) in
    Ok s2 (BroadcastMode (lightMode s1) :: if diff then [SaveSettings] else [])
  else
    Throw ("Mode " ++ mode ++ " does not exist!")%string.

(** A caller that does not look at the promise [setMode] returns: a
    failure leaves the state as it was. *)
Definition call_setMode (mode : ControllerMode) : Handler := fun s =>
  match setMode mode s with
  | Ok s' es => (s', es)
  | Throw message => (s, [Rejected message])
  end.

(** ** Handlers of the client messages *)

(** lodash's [clamp(x, 0, 255)] on integers; [clamp_js] below is the
    function on every number. *)
Definition clamp (x lower upper : Z) : Z :=
  if (x <? lower)%Z then lower else if (upper <? x)%Z then upper else x.

(** "rgb-set" of an authenticated client; [isClient] is
    [client.clientType === 'client']. *)
Definition on_rgb_set (isClient : bool) (red green blue : Z) : Handler := fun s =>
  let (s1, es) := call_setMode (if isClient then "Manual" else "AudioRaw") s in
  (with_target (mkRGB (clamp red 0 255) (clamp green 0 255) (clamp blue 0 255)) s1,
   es).

(** "mode-set" *)
Definition on_mode_set (mode : ControllerMode) : Handler := call_setMode mode.


(** "all-clients-disconnected" *)
Definition on_all_clients_disconnected : Handler := fun s =>
  if (lightMode s =? "Manual") || (lightMode s =? "ManualForce")
  then call_setMode "AutoPilot" s
  else (s, []).

(** ** The tick loop *)

(** What one frame reads from its collaborators. *)
Record Frame : Type := mkFrame {
  scheduler_state : RGB;   (* autoPilot.scheduler.state *)
  audio_rgb : RGB;         (* audioAnalyser.getRGB() *)
  possible : bool;         (* what light.setIfPossible answers *)
  elapsed : Z              (* Date.now() at the end minus Date.now() at the start *)
}.

Definition isStateChanged (f : Frame) (s : State) : bool * State :=
  if (lightMode s =? "Audio") || (lightMode s =? "AudioRaw") then (true, s)
  else if lightMode s =? "Door" then (false, s)
  else
    let s1 := if lightMode s =? "AutoPilot"
              then with_target (scheduler_state f) s else s in
    let red := (r (target s1) =? r (lastRGB s1))%Z in
    let blue := (b (target s1) =? b (lastRGB s1))%Z in
    let green := (g (target s1) =? g (lastRGB s1))%Z in
    (negb (red && blue && green), s1).

Definition changeState (f : Frame) : Handler := fun s =>
  if lightMode s =? "Audio" then
    let c := audio_rgb f in
    let value := possible f in
    if value
    then (with_target c (with_lastRGB c s),
          [SetIfPossible (r c) (g c) (b c) value; BroadcastRGB c])
    else (s, [SetIfPossible (r c) (g c) (b c) value])
  else
    let s1 := with_lastRGB (target s) s in
    (s1, [SetRGB (r (target s1)) (g (target s1)) (b (target s1));
          BroadcastRGB (target s1)]).

Definition tick (f : Frame) : Handler := fun s =>
  let (changed, s1) := isStateChanged f s in
  let (s2, es) := if changed then changeState f s1 else (s1, []) in
  let diff := elapsed f in
  if (diff >? SERVER_FPS)%Z then
    (with_timeout (Some 0) s2, es ++ [LogLagging])
  else
    let next := if (lightMode s2 =? "Audio") || (lightMode s2 =? "AudioRaw")
                then 0 else SERVER_FPS - diff in
    (with_timeout (Some next) s2, es).

(** ** Handlers of the device events *)

(** [light.on('door', level => ...)] *)
Definition on_door (level : bool) : Handler := fun s =>
  if lightMode s =? "ManualLocked" then (s, [])
  else
    let s1 := clearDoorFrameLoop s in
    if level then
      let s2 := with_lightMode "Door" (de_cancel s1) in
      (s2, SetRGB 255 255 255 :: updateModeAndLight white s2)
    else
      let s2 := with_de_pending true s1 in
      (s2, updateModeAndLight white s2).

(** The colours [onConnect] shows before it starts the loop. *)
Definition intro_sequence (s : State) : list Effect :=
  [SetRGB 255 0 0; SetRGB 0 255 0; SetRGB 0 0 255; SetRGB 0 0 0;
   SetRGB (r (target s)) (g (target s)) (b (target s))].

Definition onConnect (f : Frame) : Handler := fun s =>
  let s1 := with_timeout None s in
  let (s2, es) := tick f s1 in
  (s2, intro_sequence s1 ++ es).

(** [onConnect] in stages.  Its synchronous start clears the timer and
    goes to sleep. *)
Definition onConnect_begin : Handler := fun s =>
  (with_connecting (connecting s ++ [0%nat]) (with_timeout None s), []).

(** The colour [onConnect] writes when it wakes from its sleep number
    [k] (counted from 0). *)
Definition intro_colour (k : nat) (s : State) : Effect :=
  match k with
  | 0%nat => SetRGB 255 0 0
  | 1%nat => SetRGB 0 255 0
  | 2%nat => SetRGB 0 0 255
  | 3%nat => SetRGB 0 0 0
  | _ => SetRGB (r (target s)) (g (target s)) (b (target s))
  end.

(** A call of [tick()] that is not the firing of the timer the variable
    [timeout] refers to: the frame overwrites the variable, and a timer
    it did refer to stays pending. *)
Definition tick_call (f : Frame) : Handler := fun s =>
  let (s1, es) := tick f s in
  (with_orphans (match timeout s with
                 | Some _ => S (orphans s)
                 | None => orphans s
                 end) s1, es).

(** The call of [onConnect] number [i] wakes from a sleep: after the
    first four sleeps it writes a colour and sleeps again, after the
    fifth it writes the target and calls [tick()]. *)
Definition intro_wake (i : nat) (f : Frame) (s : State)
  : option (State * list Effect) :=
  match nth_error (connecting s) i with
  | None => None
  | Some k =>
      if (k <? 4)%nat then
        Some (with_connecting
                (firstn i (connecting s) ++ S k :: skipn (S i) (connecting s)) s,
              [intro_colour k s])
      else
        let s1 := with_connecting
                    (firstn i (connecting s) ++ skipn (S i) (connecting s)) s in
        let (s2, es) := tick_call f s1 in
        Some (s2, intro_colour k s :: es)
  end.

(** [light.on('disconnect', ...)]; [destroy] clears the same timer. *)
Definition on_disconnect : Handler := fun s => (with_timeout None s, []).

Definition destroy : Handler := fun s => (with_timeout None s, []).

(** ** Events and runs *)

Inductive Event : Type :=
| RgbSet (isClient : bool) (red green blue : Z)
| ModeSet (mode : ControllerMode)
| AllClientsDisconnected
| Door (level : bool)
| DebounceFire              (* ten seconds have passed since the last [de()] *)
| FadeFrame                 (* the interval [doorFrameLoop] fires *)
| Tick (f : Frame)          (* the timer [timeout] fires *)
| Connect (f : Frame)       (* [onConnect], nothing else happening while it sleeps *)
| Disconnect
| ConnectBegin              (* [onConnect] is called and goes to sleep *)
| IntroWake (i : nat) (f : Frame)  (* the call number [i] of [onConnect] wakes *)
| OrphanTick (f : Frame).   (* a timer of [tick] fires that [timeout] has lost *)

(** One event; [None] when the event is a timer that is not pending. *)
Definition step (s : State) (e : Event) : option (State * list Effect) :=
  match e with
  | RgbSet isClient red green blue => Some (on_rgb_set isClient red green blue s)
  | ModeSet mode => Some (on_mode_set mode s)
  | AllClientsDisconnected => Some (on_all_clients_disconnected s)
  | Door level => Some (on_door level s)
  | DebounceFire => if de_pending s then Some (de_fire s, []) else None
  | FadeFrame =>
      match doorFrameLoop s with
      | Some c => Some (fade_frame c s)
      | None => None
      end
  | Tick f =>
      match timeout s with
      | Some _ => Some (tick f s)
      | None => None
      end
  | Connect f => Some (onConnect f s)
  | Disconnect => Some (on_disconnect s)
  | ConnectBegin => Some (onConnect_begin s)
  | IntroWake i f => intro_wake i f s
  | OrphanTick f =>
      match orphans s with
      | O => None
      | S n => Some (tick_call f (with_orphans n s))
      end
  end.

(** A run of events, with the effects of all of them in order. *)
Fixpoint run (s : State) (evs : list Event) : option (State * list Effect) :=
  match evs with
  | [] => Some (s, [])
  | e :: evs' =>
      match step s e with
      | Some (s1, es1) =>
          match run s1 evs' with
          | Some (s2, es2) => Some (s2, es1 ++ es2)
          | None => None
          end
      | None => None
      end
  end.

(** The states the controller can be in: those a run from a fresh
    controller ends in. *)
Inductive reachable : State -> Prop :=
| reach_init : forall settingsMode, reachable (init settingsMode)
| reach_step : forall s e s' es,
    reachable s -> step s e = Some (s', es) -> reachable s'.

(** ** The other JavaScript numbers *)

(** A JavaScript number: a finite one (every finite double is a
    rational), NaN or an infinity.  [clamp] first turns its
    argument into a number: a channel that a message leaves out, for
    instance, arrives as NaN. *)
Inductive JsNumber : Type :=
| Finite (q : Q)
| NaN
| PosInfinity
| NegInfinity.

Definition js_of_Z (z : Z) : JsNumber := Finite (inject_Z z).

Record JsRGB : Type := mkJsRGB { jr : JsNumber; jg : JsNumber; jb : JsNumber }.


(** lodash's [clamp(x, 0, 255)] on a number: [baseClamp] leaves NaN as
    it is ([number === number] fails), and otherwise takes the upper
    bound first, [number <= upper ? number : upper], and the lower one
    after, [number >= lower ? number : lower]. *)
Definition clamp_js (x : JsNumber) : JsNumber :=
  match x with
  | NaN => NaN
  | Finite q =>
      let q1 := if Qle_bool q (inject_Z 255) then q else inject_Z 255 in
      if Qle_bool (inject_Z 0) q1 then Finite q1 else Finite (inject_Z 0)
  | PosInfinity => Finite (inject_Z 255)
  | NegInfinity => Finite (inject_Z 0)
  end.

(** The colour "rgb-set" stores:
    [RGB.r = clamp(red, 0, 255)], and so for blue and green. *)
Definition rgb_set_js (red green blue : JsNumber) : JsRGB :=
  mkJsRGB (clamp_js red) (clamp_js green) (clamp_js blue).

(** [c > x] and [c === x] for a cursor of the fade-back; the cursor
    starts at 255 and is only decremented, so it is an integer. *)
Definition js_gt (c : Z) (x : JsNumber) : bool :=
  match x with
  | Finite q => negb (Qle_bool (inject_Z c) q)
  | NaN => false
  | PosInfinity => false
  | NegInfinity => true
  end.

Definition js_eq (c : Z) (x : JsNumber) : bool :=
  match x with
  | Finite q => Qeq_bool (inject_Z c) q
  | _ => false
  end.

(** The callback of the interval for a target of any numbers:
    [if (r > RGB.r) r--] and the end test
    [r === RGB.r && b === RGB.b && b === RGB.b]. *)
Definition fade_cursor_js (c : RGB) (t : JsRGB) : RGB :=
  mkRGB (if js_gt (r c) (jr t) then r c - 1 else r c)
        (if js_gt (g c) (jg t) then g c - 1 else g c)
        (if js_gt (b c) (jb t) then b c - 1 else b c).

Definition fade_done_js (c : RGB) (t : JsRGB) : bool :=
  js_eq (r c) (jr t) && js_eq (b c) (jb t) && js_eq (b c) (jb t).

(** Whether one of the first [n] callbacks of an interval with cursor
    [c] passes the end test, the target staying [t]. *)
Fixpoint fade_ends_within (n : nat) (c : RGB) (t : JsRGB) : bool :=
  match n with
  | O => false
  | S n' =>
      let c' := fade_cursor_js c t in
      fade_done_js c' t || fade_ends_within n' c' t
  end.

(** ** Auxiliary notions of the statements *)

(** What holds in every reachable state: the settings and [lastMode]
    agree, the current mode is [lastMode] unless the door holds it, a
    running interval means the debounce is not pending, and in mode
    [ManualLocked] no door timer is pending. *)
Record Inv (s : State) : Prop := mkInv {
  inv_settings : controllerMode s = lastMode s;
  inv_mode : lightMode s = lastMode s \/ lightMode s = "Door";
  inv_fade : doorFrameLoop s <> None -> de_pending s = false;
  inv_locked : lightMode s = "ManualLocked" ->
               de_pending s = false /\ doorFrameLoop s = None
}.

(** The modes that have no case of their own in [isStateChanged] and
    [changeState]. *)
Definition plain_modes : list ControllerMode :=
  ["Manual"; "Pattern"; "ManualForce"; "ManualLocked"].

(** The delay a frame in a plain mode sets its timer to. *)
Definition next_delay (f : Frame) : Z :=
  if (elapsed f >? SERVER_FPS)%Z then 0 else SERVER_FPS - elapsed f.

Definition lag_log (f : Frame) : list Effect :=
  if (elapsed f >? SERVER_FPS)%Z then [LogLagging] else [].

(** The colour "rgb-set" stores for the numbers a client sent. *)
Definition clamped (red green blue : Z) : RGB :=
  mkRGB (clamp red 0 255) (clamp green 0 255) (clamp blue 0 255).

(** The delay of the timer a frame sets, for the mode it ran in. *)
Definition frame_delay (f : Frame) (mode : ControllerMode) : Z :=
  if (elapsed f >? SERVER_FPS)%Z then 0
  else if (mode =? "Audio") || (mode =? "AudioRaw") then 0
  else SERVER_FPS - elapsed f.

(** The effects that tell about the mode: only [setMode], the door
    handler and the fade-back have them. *)
Definition is_mode_effect (e : Effect) : bool :=
  match e with
  | BroadcastMode _ | SaveSettings | Rejected _ => true
  | _ => false
  end.

(** The events that are commands of a client. *)
Definition is_client_command (e : Event) : bool :=
  match e with
  | RgbSet _ _ _ _ | ModeSet _ => true
  | _ => false
  end.

(** The events of the connection and of the tick loop: they touch no
    mode and no door timer. *)
Definition is_loop_event (e : Event) : bool :=
  match e with
  | Tick _ | Connect _ | Disconnect | ConnectBegin | IntroWake _ _
  | OrphanTick _ => true
  | _ => false
  end.




(** The integer below a finite number. *)
Definition js_floor (x : JsNumber) : Z :=
  match x with
  | Finite q => Qfloor q
  | _ => 0
  end.

(** An integer that is at most 255. *)
Definition js_is_int_upto_255 (x : JsNumber) : bool :=
  match x with
  | Finite q => Qeq_bool (inject_Z (Qfloor q)) q && (Qfloor q <=? 255)%Z
  | _ => false
  end.

(** A number that [clamp] turns into an integer: an integer, or a number
    outside of 0..255. *)
Definition js_int_or_outside (x : JsNumber) : bool :=
  match x with
  | Finite q =>
      Qeq_bool (inject_Z (Qfloor q)) q
      || negb (Qle_bool (inject_Z 0) q) || negb (Qle_bool q (inject_Z 255))
  | NaN => false
  | PosInfinity | NegInfinity => true
  end.

(** The number of the callback that passes the end test first, for a
    target whose red and blue are integers up to 255. *)
Definition fade_length_js (t : JsRGB) : nat :=
  Z.to_nat (Z.max 1 (255 - Z.min (js_floor (jr t)) (js_floor (jb t)))).

(** The events whose handlers call [setMode]. *)
Definition calls_setMode (e : Event) : bool :=
  match e with
  | RgbSet _ _ _ _ | ModeSet _ | AllClientsDisconnected => true
  | _ => false
  end.

(** * Properties *)

(** ** Tactics and basic facts *)

Ltac case_if :=
  match goal with
  | |- context [if ?c then _ else _] => destruct c eqn:?
  end.

Ltac inv_pair :=
  match goal with
  | H : (_, _) = (_, _) |- _ => inversion H; subst; clear H
  | H : Some _ = Some _ |- _ => inversion H; subst; clear H
  | H : Ok _ _ = Ok _ _ |- _ => inversion H; subst; clear H
  end.

Lemma is_settable_In (mode : ControllerMode) :
  is_settable mode = true <-> In mode settable_modes.
Proof.
  unfold is_settable. rewrite existsb_exists. split.
  - intros [x [Hin Heq]]. apply String.eqb_eq in Heq. now subst.
  - intros Hin. exists mode. split; [assumption | apply String.eqb_refl].
Qed.

Lemma Door_not_settable : is_settable "Door" = false.
Proof. reflexivity. Qed.

(** What a call of [setMode] that returns has done. *)
Lemma setMode_Ok (mode : ControllerMode) (s s' : State) (es : list Effect) :
  setMode mode s = Ok s' es ->
  is_settable mode = true /\
  s' = de_cancel (clearDoorFrameLoop (with_modes mode s)) /\
  es = BroadcastMode mode ::
         (if negb (lightMode s =? mode) then [SaveSettings] else []).
Proof.
  unfold setMode. destruct (is_settable mode); [|discriminate].
  intros H. inv_pair. auto.
Qed.

Lemma setMode_Throw (mode : ControllerMode) (s : State) :
  is_settable mode = false ->
  setMode mode s = Throw ("Mode " ++ mode ++ " does not exist!")%string.
Proof. unfold setMode. now intros ->. Qed.

(** [call_setMode] either leaves the state or installs the mode and
    clears both door timers. *)
Lemma call_setMode_cases (mode : ControllerMode) (s : State) :
  fst (call_setMode mode s) = s \/
  fst (call_setMode mode s) = de_cancel (clearDoorFrameLoop (with_modes mode s)).
Proof.
  unfold call_setMode, setMode. destruct (is_settable mode); simpl; auto.
Qed.

(** A frame touches the two colours and the tick timer, nothing else. *)
Lemma isStateChanged_frame (f : Frame) (s : State) :
  let s' := snd (isStateChanged f s) in
  lightMode s' = lightMode s /\ lastMode s' = lastMode s /\
  controllerMode s' = controllerMode s /\ de_pending s' = de_pending s /\
  doorFrameLoop s' = doorFrameLoop s /\ timeout s' = timeout s /\
  lastRGB s' = lastRGB s.
Proof.
  unfold isStateChanged. repeat case_if; simpl; auto 10.
Qed.

Lemma changeState_frame (f : Frame) (s : State) :
  let s' := fst (changeState f s) in
  lightMode s' = lightMode s /\ lastMode s' = lastMode s /\
  controllerMode s' = controllerMode s /\ de_pending s' = de_pending s /\
  doorFrameLoop s' = doorFrameLoop s /\ timeout s' = timeout s.
Proof.
  unfold changeState. repeat case_if; simpl; auto 10.
Qed.

Lemma tick_frame (f : Frame) (s : State) :
  let s' := fst (tick f s) in
  lightMode s' = lightMode s /\ lastMode s' = lastMode s /\
  controllerMode s' = controllerMode s /\ de_pending s' = de_pending s /\
  doorFrameLoop s' = doorFrameLoop s.
Proof.
  unfold tick.
  pose proof (isStateChanged_frame f s) as Hi.
  destruct (isStateChanged f s) as [changed s1]. simpl in Hi.
  pose proof (changeState_frame f s1) as Hc.
  destruct changed.
  - destruct (changeState f s1) as [s2 es]. simpl in Hc.
    repeat case_if; simpl; intuition congruence.
  - repeat case_if; simpl; intuition.
Qed.


Lemma tick_call_state (f : Frame) (s : State) :
  fst (tick_call f s) =
    with_orphans (match timeout s with
                  | Some _ => S (orphans s)
                  | None => orphans s
                  end) (fst (tick f s)) /\
  snd (tick_call f s) = snd (tick f s).
Proof. unfold tick_call. now destruct (tick f s). Qed.

(** What waking from a sleep of [onConnect] does. *)
Lemma intro_wake_cases (i : nat) (f : Frame) (s s' : State) (es : list Effect) :
  intro_wake i f s = Some (s', es) ->
  exists k, nth_error (connecting s) i = Some k /\
    (((k < 4)%nat /\
      s' = with_connecting
             (firstn i (connecting s) ++ S k :: skipn (S i) (connecting s)) s /\
      es = [intro_colour k s]) \/
     ((4 <= k)%nat /\
      s' = fst (tick_call f
                  (with_connecting
                     (firstn i (connecting s) ++ skipn (S i) (connecting s)) s)) /\
      es = intro_colour k s ::
           snd (tick f (with_connecting
                          (firstn i (connecting s) ++ skipn (S i) (connecting s))
                          s)))).
Proof.
  unfold intro_wake. destruct (nth_error (connecting s) i) as [k|]; [|discriminate].
  intros H. exists k. split; [reflexivity|].
  destruct (Nat.ltb_spec k 4).
  - left. injection H as <- <-. auto.
  - right.
    pose proof (tick_call_state f
                  (with_connecting
                     (firstn i (connecting s) ++ skipn (S i) (connecting s)) s))
      as [E1 E2].
    destruct (tick_call f _) as [s2 es2]. injection H as <- <-.
    cbn [fst snd] in *. rewrite E2. auto.
Qed.

(** The events of the connection and of the loop leave the modes and
    the door timers alone. *)
Lemma step_loop_frame (s s' : State) (e : Event) (es : list Effect) :
  is_loop_event e = true -> step s e = Some (s', es) ->
  lightMode s' = lightMode s /\ lastMode s' = lastMode s /\
  controllerMode s' = controllerMode s /\ de_pending s' = de_pending s /\
  doorFrameLoop s' = doorFrameLoop s.
Proof.
  intros He Hs. destruct e; try discriminate He; simpl in Hs.
  - destruct (timeout s); [|discriminate]. injection Hs as Hs.
    pose proof (tick_frame f s) as H. rewrite Hs in H. exact H.
  - injection Hs as Hs. unfold onConnect in Hs.
    pose proof (tick_frame f (with_timeout None s)) as H.
    destruct (tick f (with_timeout None s)) as [s2 es2].
    injection Hs as <- <-. exact H.
  - injection Hs as <- <-. auto.
  - injection Hs as <- <-. auto.
  - apply intro_wake_cases in Hs as (k & _ & [(_ & -> & _) | (_ & -> & _)]).
    + auto.
    + destruct (tick_call_state f
                  (with_connecting
                     (firstn i (connecting s) ++ skipn (S i) (connecting s)) s))
        as [-> _].
      apply (tick_frame f (with_connecting _ s)).
  - destruct (orphans s) as [|n]; [discriminate|]. injection Hs as Hs.
    destruct (tick_call_state f (with_orphans n s)) as [E _].
    rewrite Hs in E. cbn [fst] in E. subst s'.
    apply (tick_frame f (with_orphans n s)).
Qed.

Ltac loop_frame s s' e es Hs :=
  let E1 := fresh "Elm" in
  let E2 := fresh "Ela" in
  let E3 := fresh "Ecm" in
  let E4 := fresh "Edp" in
  let E5 := fresh "Edl" in
  destruct (step_loop_frame s s' e es eq_refl Hs) as (E1 & E2 & E3 & E4 & E5).

(** ** The invariant of the reachable states *)

Lemma Inv_init (settingsMode : ControllerMode) : Inv (init settingsMode).
Proof. constructor; simpl; auto. Qed.

Lemma Inv_call_setMode (mode : ControllerMode) (s : State) :
  Inv s -> Inv (fst (call_setMode mode s)).
Proof.
  intros HI. destruct (call_setMode_cases mode s) as [-> | ->]; [assumption|].
  constructor; simpl; auto.
Qed.

(** The invariant looks at no colour and at no tick timer. *)
Lemma Inv_ext (s s' : State) :
  lightMode s' = lightMode s -> lastMode s' = lastMode s ->
  controllerMode s' = controllerMode s -> de_pending s' = de_pending s ->
  doorFrameLoop s' = doorFrameLoop s -> Inv s -> Inv s'.
Proof.
  intros H1 H2 H3 H4 H5 [I1 I2 I3 I4].
  constructor; rewrite ?H1, ?H2, ?H3, ?H4, ?H5; assumption.
Qed.

Lemma Inv_on_door (level : bool) (s : State) :
  Inv s -> Inv (fst (on_door level s)).
Proof.
  intros [I1 I2 I3 I4]. unfold on_door.
  destruct (String.eqb_spec (lightMode s) "ManualLocked") as [E | E].
  - simpl. constructor; assumption.
  - destruct level; constructor; simpl; auto; try discriminate; intros;
      congruence.
Qed.

Lemma Inv_de_fire (s : State) :
  Inv s -> de_pending s = true -> Inv (de_fire s).
Proof.
  intros [I1 I2 I3 I4] Hp. constructor; simpl; auto.
  intros E. destruct (I4 E) as [E' _]. congruence.
Qed.

Lemma Inv_fade_frame (c : RGB) (s : State) :
  Inv s -> doorFrameLoop s = Some c -> Inv (fst (fade_frame c s)).
Proof.
  intros [I1 I2 I3 I4] Hl. unfold fade_frame.
  assert (Hp : de_pending s = false) by (apply I3; congruence).
  destruct (fade_done _ _); constructor; simpl; auto.
  intros E. destruct (I4 E) as [_ E']. congruence.
Qed.

Lemma Some_pair {A B : Type} (p : A * B) (a : A) (b : B) :
  Some p = Some (a, b) -> a = fst p /\ b = snd p.
Proof. intros H. injection H as ->. auto. Qed.

Ltac state_of H s' :=
  let E := fresh "E" in
  apply Some_pair in H as [E _]; cbn [fst] in E; subst s'.

Lemma Inv_on_rgb_set (isClient : bool) (red green blue : Z) (s : State) :
  Inv s -> Inv (fst (on_rgb_set isClient red green blue s)).
Proof.
  intros HI. unfold on_rgb_set.
  pose proof (Inv_call_setMode (if isClient then "Manual" else "AudioRaw") s HI) as H.
  destruct (call_setMode _ s) as [s1 es1]. simpl in *.
  revert H. apply Inv_ext; reflexivity.
Qed.

Lemma Inv_on_all_clients_disconnected (s : State) :
  Inv s -> Inv (fst (on_all_clients_disconnected s)).
Proof.
  intros HI. unfold on_all_clients_disconnected.
  destruct (_ || _); [now apply Inv_call_setMode | assumption].
Qed.

Lemma Inv_tick (f : Frame) (s : State) : Inv s -> Inv (fst (tick f s)).
Proof.
  destruct (tick_frame f s) as (H1 & H2 & H3 & H4 & H5). now apply Inv_ext.
Qed.

Lemma Inv_with_timeout (t : option Z) (s : State) :
  Inv s -> Inv (with_timeout t s).
Proof. apply Inv_ext; reflexivity. Qed.

Lemma onConnect_state (f : Frame) (s : State) :
  fst (onConnect f s) = fst (tick f (with_timeout None s)).
Proof.
  unfold onConnect. now destruct (tick f (with_timeout None s)).
Qed.

Lemma Inv_step (s s' : State) (e : Event) (es : list Effect) :
  Inv s -> step s e = Some (s', es) -> Inv s'.
Proof.
  intros HI Hs. destruct e; simpl in Hs.
  - state_of Hs s'. now apply Inv_on_rgb_set.
  - state_of Hs s'. now apply Inv_call_setMode.
  - state_of Hs s'. now apply Inv_on_all_clients_disconnected.
  - state_of Hs s'. now apply Inv_on_door.
  - destruct (de_pending s) eqn:Hp; [|discriminate].
    state_of Hs s'. now apply Inv_de_fire.
  - destruct (doorFrameLoop s) as [c|] eqn:Hl; [|discriminate].
    state_of Hs s'. now apply Inv_fade_frame.
  - destruct (timeout s); [|discriminate].
    state_of Hs s'. now apply Inv_tick.
  - state_of Hs s'. rewrite onConnect_state.
    now apply Inv_tick, Inv_with_timeout.
  - state_of Hs s'. now apply Inv_with_timeout.
  - destruct (step_loop_frame s s' ConnectBegin es eq_refl Hs)
      as (H1 & H2 & H3 & H4 & H5). now apply (Inv_ext s).
  - destruct (step_loop_frame s s' (IntroWake i f) es eq_refl Hs)
      as (H1 & H2 & H3 & H4 & H5). now apply (Inv_ext s).
  - destruct (step_loop_frame s s' (OrphanTick f) es eq_refl Hs)
      as (H1 & H2 & H3 & H4 & H5). now apply (Inv_ext s).
Qed.

Lemma reachable_Inv (s : State) : reachable s -> Inv s.
Proof.
  induction 1 as [m | s e s' es _ IH Hs].
  - apply Inv_init.
  - exact (Inv_step s s' e es IH Hs).
Qed.

(** A run from a reachable state ends in a reachable state. *)
Lemma reachable_run (evs : list Event) :
  forall s s' es, reachable s -> run s evs = Some (s', es) -> reachable s'.
Proof.
  induction evs as [|e evs IH]; simpl; intros s s' es Hr Hrun.
  - now inv_pair.
  - destruct (step s e) as [[s1 es1]|] eqn:Hs; [|discriminate].
    destruct (run s1 evs) as [[s2 es2]|] eqn:Hr2; [|discriminate].
    inv_pair. eapply IH; [|exact Hr2]. eapply reach_step; eauto.
Qed.

(** ** [setMode] *)

(** C5, as stated, fails: [Door] is one of the eight values of
    [ControllerMode], and [setMode] does not accept it. *)
Lemma setMode_rejects_Door :
  ~ (In "Door" all_modes ->
     exists s' es, setMode "Door" (init "Manual") = Ok s' es).
Proof.
  intros H. destruct H as (s' & es & H).
  - simpl. tauto.
  - discriminate H.
Qed.

(** C5 (amended): [setMode] accepts a requested mode exactly when it is
    one of the seven modes that have a case in its [switch] (every
    [ControllerMode] but [Door]); for every other value, [Door] among
    them, it fails with the error "Mode <mode> does not exist!" and the
    state of the controller stays as it was. *)
Theorem setMode_accepts_settable (mode : ControllerMode) (s : State) :
  (In mode settable_modes <-> exists s' es, setMode mode s = Ok s' es) /\
  (~ In mode settable_modes ->
   setMode mode s = Throw ("Mode " ++ mode ++ " does not exist!")%string /\
   on_mode_set mode s =
     (s, [Rejected ("Mode " ++ mode ++ " does not exist!")%string])).
Proof.
  split.
  - rewrite <- is_settable_In. unfold setMode.
    destruct (is_settable mode); split; intros H; eauto; try discriminate.
    destruct H as (s' & es & H). discriminate H.
  - intros Hn.
    assert (E : is_settable mode = false).
    { destruct (is_settable mode) eqn:E; [|reflexivity].
      apply is_settable_In in E. contradiction. }
    unfold on_mode_set, call_setMode. rewrite (setMode_Throw mode s E). auto.
Qed.

Lemma setMode_accepts_settable_witness :
  ~ In "Door" settable_modes /\
  setMode "Door" (init "Manual") = Throw "Mode Door does not exist!" /\
  on_mode_set "Door" (init "Manual") =
    (init "Manual", [Rejected "Mode Door does not exist!"]).
Proof.
  assert (Hn : ~ In "Door" settable_modes).
  { simpl. intros H. repeat (destruct H as [H | H]; [discriminate H|]). exact H. }
  split; [exact Hn|].
  exact (proj2 (setMode_accepts_settable "Door" (init "Manual")) Hn).
Defined.

(** C2, as stated, fails: after [setMode("AutoPilot")] in mode [Manual]
    the variable [lastMode] holds [AutoPilot], not [Manual]. *)
Lemma setMode_lastMode_is_new_mode :
  ~ (forall s' es,
       setMode "AutoPilot" (init "Manual") = Ok s' es ->
       "AutoPilot" <> lightMode (init "Manual") ->
       lastMode s' = lightMode (init "Manual") /\ lightMode s' = "AutoPilot").
Proof.
  intros H.
  destruct (H _ _ eq_refl) as [E _]; [discriminate|].
  discriminate E.
Qed.

(** C2 (amended): after every successful call [setMode(m)] the current
    mode and the stored [lastMode] both equal [m]: [lastMode] is the
    mode selected last (what the fade-back returns to), not the mode
    that was current before the call.  When [m] equals the current mode
    of a reachable state, [lastMode] is left as it was. *)
Theorem setMode_sets_both_modes
    (mode : ControllerMode) (s s' : State) (es : list Effect) :
  setMode mode s = Ok s' es ->
  lightMode s' = mode /\ lastMode s' = mode /\
  (reachable s -> mode = lightMode s -> lastMode s' = lastMode s).
Proof.
  intros H. apply setMode_Ok in H as (Hset & -> & _). simpl.
  split; [reflexivity|]. split; [reflexivity|].
  intros Hr ->. destruct (reachable_Inv s Hr) as [_ [E | E] _ _].
  - exact E.
  - rewrite E in Hset. discriminate Hset.
Qed.

Lemma setMode_sets_both_modes_witness :
  (lightMode (with_de_pending false (with_doorFrameLoop None
                (with_modes "AutoPilot" (init "Manual")))) = "AutoPilot" /\
   lastMode (with_de_pending false (with_doorFrameLoop None
                (with_modes "AutoPilot" (init "Manual")))) = "AutoPilot") /\
  lastMode (with_de_pending false (with_doorFrameLoop None
               (with_modes "Manual" (init "Manual")))) =
    lastMode (init "Manual").
Proof.
  pose proof (setMode_sets_both_modes "AutoPilot" (init "Manual") _ _ eq_refl)
    as (H1 & H2 & _).
  pose proof (setMode_sets_both_modes "Manual" (init "Manual") _ _ eq_refl)
    as (_ & _ & H3).
  exact (conj (conj H1 H2) (H3 (reach_init "Manual") eq_refl)).
Defined.

(** C3, as stated, fails: a call [setMode("Manual")] in mode [Manual]
    does broadcast "mode-update". *)
Lemma setMode_same_mode_broadcasts :
  ~ (forall s' es,
       setMode "Manual" (init "Manual") = Ok s' es ->
       lightMode (init "Manual") = "Manual" ->
       forall m, ~ In (BroadcastMode m) es).
Proof.
  intros H. apply (H _ _ eq_refl eq_refl "Manual"). simpl. auto.
Qed.

(** C3 (amended): a successful call [setMode(m)] where [m] already is
    the current mode (so [m] is not [Door]) of a reachable state does
    not call [saveSettings], does send the one broadcast "mode-update"
    with [m], cancels the pending door debounce and the running
    fade-back interval, and changes nothing else. *)
Theorem setMode_same_mode
    (mode : ControllerMode) (s s' : State) (es : list Effect) :
  reachable s -> lightMode s = mode -> setMode mode s = Ok s' es ->
  es = [BroadcastMode mode] /\ ~ In SaveSettings es /\
  de_pending s' = false /\ doorFrameLoop s' = None /\
  s' = with_de_pending false (with_doorFrameLoop None s).
Proof.
  intros Hr Hm H. apply setMode_Ok in H as (Hset & -> & ->).
  rewrite Hm, String.eqb_refl. simpl.
  split; [reflexivity|]. split.
  { intros [E | []]. discriminate E. }
  split; [reflexivity|]. split; [reflexivity|].
  destruct (reachable_Inv s Hr) as [I1 [I2 | I2] _ _].
  - destruct s; simpl in *. subst. reflexivity.
  - rewrite Hm in I2. rewrite I2 in Hset. discriminate Hset.
Qed.

Lemma setMode_same_mode_witness :
  exists s', setMode "Manual" (init "Manual") = Ok s' [BroadcastMode "Manual"] /\
             s' = with_de_pending false (with_doorFrameLoop None (init "Manual")).
Proof.
  eexists. split; [reflexivity|].
  exact (proj2 (proj2 (proj2 (proj2
    (setMode_same_mode "Manual" (init "Manual") _ _
       (reach_init "Manual") eq_refl eq_refl))))).
Defined.

(** ** The door *)

(** C7: a door-open event in mode [ManualLocked] changes nothing and
    does nothing; in every other mode the mode becomes [Door], white is
    written to the device first, and the mode and white are broadcast. *)
Theorem door_open_forces_white (s : State) :
  step s (Door true) = Some (on_door true s) /\
  (lightMode s = "ManualLocked" -> on_door true s = (s, [])) /\
  (lightMode s <> "ManualLocked" ->
   lightMode (fst (on_door true s)) = "Door" /\
   snd (on_door true s) =
     [SetRGB 255 255 255; BroadcastMode "Door"; BroadcastRGB white]).
Proof.
  split; [reflexivity|]. unfold on_door.
  destruct (String.eqb_spec (lightMode s) "ManualLocked") as [E | E].
  - split; [reflexivity | contradiction].
  - split; [contradiction|]. intros _. simpl. auto.
Qed.

Lemma door_open_forces_white_witness :
  on_door true (init "ManualLocked") = (init "ManualLocked", []) /\
  lightMode (fst (on_door true (init "AutoPilot"))) = "Door" /\
  snd (on_door true (init "AutoPilot")) =
    [SetRGB 255 255 255; BroadcastMode "Door"; BroadcastRGB white].
Proof.
  split.
  - exact (proj1 (proj2 (door_open_forces_white (init "ManualLocked"))) eq_refl).
  - apply (proj2 (proj2 (door_open_forces_white (init "AutoPilot")))).
    simpl. discriminate.
Defined.

(** ** The tick loop *)

Lemma rgb_eqb_eq (x y : RGB) : rgb_eqb x y = true <-> x = y.
Proof.
  unfold rgb_eqb. rewrite !andb_true_iff, !Z.eqb_eq.
  destruct x, y; simpl. split.
  - intros [[-> ->] ->]. reflexivity.
  - intros E. injection E as -> -> ->. auto.
Qed.

Lemma rgb_eqb_neq (x y : RGB) :
  rgb_eqb x y = false <-> (r x <> r y \/ g x <> g y \/ b x <> b y).
Proof.
  unfold rgb_eqb.
  destruct (Z.eqb_spec (r x) (r y)), (Z.eqb_spec (g x) (g y)),
    (Z.eqb_spec (b x) (b y)); simpl; split; intros H; try discriminate;
    try reflexivity; tauto.
Qed.

Lemma isStateChanged_plain (f : Frame) (s : State) :
  In (lightMode s) plain_modes ->
  isStateChanged f s = (negb (rgb_eqb (target s) (lastRGB s)), s).
Proof.
  intros Hm. unfold isStateChanged, rgb_eqb.
  assert (E : (lightMode s =? "Audio") || (lightMode s =? "AudioRaw") = false
              /\ (lightMode s =? "Door") = false
              /\ (lightMode s =? "AutoPilot") = false).
  { simpl in Hm.
    repeat (destruct Hm as [Hm | Hm]; [rewrite <- Hm; auto|]). destruct Hm. }
  destruct E as (-> & -> & ->).
  f_equal. f_equal.
  destruct (r (target s) =? r (lastRGB s))%Z, (g (target s) =? g (lastRGB s))%Z,
    (b (target s) =? b (lastRGB s))%Z; reflexivity.
Qed.

Lemma changeState_plain (f : Frame) (s : State) :
  In (lightMode s) plain_modes ->
  changeState f s =
    (with_lastRGB (target s) s,
     [SetRGB (r (target s)) (g (target s)) (b (target s));
      BroadcastRGB (target s)]).
Proof.
  intros Hm. unfold changeState.
  assert (E : (lightMode s =? "Audio") = false).
  { simpl in Hm.
    repeat (destruct Hm as [Hm | Hm]; [rewrite <- Hm; auto|]). destruct Hm. }
  rewrite E. reflexivity.
Qed.

Lemma tick_plain (f : Frame) (s : State) :
  In (lightMode s) plain_modes ->
  tick f s =
    if rgb_eqb (target s) (lastRGB s)
    then (with_timeout (Some (next_delay f)) s, lag_log f)
    else (with_timeout (Some (next_delay f)) (with_lastRGB (target s) s),
          [SetRGB (r (target s)) (g (target s)) (b (target s));
           BroadcastRGB (target s)] ++ lag_log f).
Proof.
  intros Hm. unfold tick, next_delay, lag_log.
  rewrite (isStateChanged_plain f s Hm).
  assert (E : (lightMode s =? "Audio") || (lightMode s =? "AudioRaw") = false).
  { simpl in Hm.
    repeat (destruct Hm as [Hm | Hm]; [rewrite <- Hm; auto|]). destruct Hm. }
  destruct (rgb_eqb (target s) (lastRGB s)); simpl negb; cbv iota.
  - simpl lightMode. rewrite E.
    destruct (elapsed f >? SERVER_FPS)%Z; reflexivity.
  - rewrite (changeState_plain f s Hm). simpl lightMode. rewrite E.
    destruct (elapsed f >? SERVER_FPS)%Z; simpl; rewrite ?app_nil_r; reflexivity.
Qed.

Lemma device_writes_app (es1 es2 : list Effect) :
  device_writes (es1 ++ es2) = device_writes es1 ++ device_writes es2.
Proof. apply filter_app. Qed.

Lemma device_writes_lag_log (f : Frame) : device_writes (lag_log f) = [].
Proof. unfold lag_log. now destruct (_ >? _)%Z. Qed.

(** C6: a frame whose processing took longer than the frame interval
    ends normally, logs the lagging line and sets its timer with delay
    0, so that the next frame can run. *)
Theorem tick_overrun_reschedules (f : Frame) (s : State) :
  (elapsed f > SERVER_FPS)%Z ->
  timeout (fst (tick f s)) = Some 0%Z /\
  In LogLagging (snd (tick f s)) /\
  forall f', step (fst (tick f s)) (Tick f') = Some (tick f' (fst (tick f s))).
Proof.
  intros Hlag.
  assert (E : (elapsed f >? SERVER_FPS)%Z = true) by (apply Z.gtb_lt; lia).
  assert (Ht : timeout (fst (tick f s)) = Some 0%Z /\ In LogLagging (snd (tick f s))).
  { unfold tick. destruct (isStateChanged f s) as [changed s1].
    destruct (if changed then changeState f s1 else (s1, [])) as [s2 es].
    rewrite E. simpl. split; [reflexivity|].
    apply in_or_app. right. simpl. auto. }
  destruct Ht as [Ht Hl]. repeat split; try assumption.
  intros f'. simpl. now rewrite Ht.
Qed.

Lemma tick_overrun_reschedules_witness :
  timeout (fst (tick (mkFrame black black true 51) (init "AutoPilot"))) = Some 0%Z /\
  In LogLagging (snd (tick (mkFrame black black true 51) (init "AutoPilot"))).
Proof.
  assert (H : (elapsed (mkFrame black black true 51) > SERVER_FPS)%Z)
    by (vm_compute; reflexivity).
  destruct (tick_overrun_reschedules (mkFrame black black true 51)
              (init "AutoPilot") H) as (H1 & H2 & _).
  exact (conj H1 H2).
Defined.

(** Frames of a plain mode whose target already is the last-pushed
    colour write nothing to the device, however many of them run. *)
Lemma ticks_quiet (fs : list Frame) :
  forall s, In (lightMode s) plain_modes -> lastRGB s = target s ->
            timeout s <> None ->
  exists s' es, run s (map Tick fs) = Some (s', es) /\
                device_writes es = [] /\
                target s' = target s /\ lastRGB s' = target s /\
                lightMode s' = lightMode s.
Proof.
  induction fs as [|f fs IH]; intros s Hm Heq Ht; simpl.
  - exists s, []. auto.
  - destruct (timeout s) as [d|] eqn:Hd; [clear Ht | contradiction].
    rewrite (tick_plain f s Hm), Heq.
    replace (rgb_eqb (target s) (target s)) with true
      by (symmetry; now apply rgb_eqb_eq).
    destruct (IH (with_timeout (Some (next_delay f)) s))
      as (s' & es & Hrun & Hw & H1 & H2 & H3); simpl; try assumption;
      try discriminate.
    rewrite Hrun. exists s', (lag_log f ++ es).
    rewrite device_writes_app, device_writes_lag_log, Hw. auto.
Qed.

(** C9: in the modes [Manual], [Pattern], [ManualForce] and
    [ManualLocked] a frame reports a change exactly when a channel of
    the target differs from the last-pushed colour; on a change the
    target is written to the device, broadcast, and becomes the
    last-pushed colour; without one nothing is written.  So in mode
    [Manual] with target (10,20,30) not yet pushed, the next frame
    writes (10,20,30), and that is the only device write of any number
    of frames that follow it. *)
Theorem tick_pushes_on_change (f : Frame) (s : State) :
  In (lightMode s) plain_modes ->
  (fst (isStateChanged f s) = true <->
     (r (target s) <> r (lastRGB s) \/ g (target s) <> g (lastRGB s) \/
      b (target s) <> b (lastRGB s))) /\
  snd (isStateChanged f s) = s /\
  (fst (isStateChanged f s) = true ->
     device_writes (snd (tick f s)) =
       [SetRGB (r (target s)) (g (target s)) (b (target s))] /\
     In (BroadcastRGB (target s)) (snd (tick f s)) /\
     lastRGB (fst (tick f s)) = target s /\
     target (fst (tick f s)) = target s) /\
  (fst (isStateChanged f s) = false ->
     device_writes (snd (tick f s)) = [] /\
     lastRGB (fst (tick f s)) = lastRGB s) /\
  (lightMode s = "Manual" -> target s = mkRGB 10 20 30 ->
   lastRGB s <> target s -> timeout s <> None ->
   forall fs, exists s' es,
     run s (map Tick (f :: fs)) = Some (s', es) /\
     device_writes es = [SetRGB 10 20 30] /\
     target s' = mkRGB 10 20 30).
Proof.
  intros Hm. rewrite (isStateChanged_plain f s Hm). cbn [fst snd].
  rewrite negb_true_iff, negb_false_iff.
  split; [apply rgb_eqb_neq|]. split; [reflexivity|].
  rewrite (tick_plain f s Hm). split; [|split].
  - intros ->. cbn [fst snd]. rewrite device_writes_app, device_writes_lag_log.
    simpl. auto.
  - intros ->. cbn [fst snd]. rewrite device_writes_lag_log. auto.
  - intros Hmode Htarget Hne Ht fs. simpl.
    destruct (timeout s) as [d|] eqn:Hd; [clear Ht | contradiction].
    rewrite (tick_plain f s Hm).
    destruct (rgb_eqb (target s) (lastRGB s)) eqn:E.
    { apply rgb_eqb_eq in E. congruence. }
    destruct (ticks_quiet fs
                (with_timeout (Some (next_delay f)) (with_lastRGB (target s) s)))
      as (s' & es & Hrun & Hw & H1 & H2 & H3); simpl; try assumption;
      try reflexivity; try discriminate.
    rewrite Hrun. eexists. eexists. split; [reflexivity|].
    change (SetRGB (r (target s)) (g (target s)) (b (target s))
            :: BroadcastRGB (target s) :: lag_log f ++ es)
      with ([SetRGB (r (target s)) (g (target s)) (b (target s));
             BroadcastRGB (target s)] ++ lag_log f ++ es).
    rewrite !device_writes_app, device_writes_lag_log, Hw, Htarget.
    simpl in H1. rewrite H1, Htarget. auto.
Qed.

Lemma tick_pushes_on_change_witness :
  exists s' es,
    run (with_timeout (Some 50%Z) (with_target (mkRGB 10 20 30) (init "Manual")))
        (map Tick [mkFrame black black true 3; mkFrame black black true 2;
                   mkFrame black black true 60]) = Some (s', es) /\
    device_writes es = [SetRGB 10 20 30] /\
    target s' = mkRGB 10 20 30.
Proof.
  assert (Hm : In (lightMode (with_timeout (Some 50%Z)
                     (with_target (mkRGB 10 20 30) (init "Manual")))) plain_modes)
    by (simpl; auto).
  refine (proj2 (proj2 (proj2 (proj2
    (tick_pushes_on_change (mkFrame black black true 3) _ Hm)))) eq_refl eq_refl _ _
    [mkFrame black black true 2; mkFrame black black true 60]).
  - simpl. discriminate.
  - simpl. discriminate.
Defined.

(** C10: a fresh controller has target (0,0,0) and last-pushed colour
    (255,255,255); when the mode of the settings is [Manual], [Pattern],
    [ManualForce] or [ManualLocked], the frame that [onConnect] runs
    after its colour sequence reports a change, writes (0,0,0) to the
    device and broadcasts it. *)
Theorem first_tick_pushes_black (settingsMode : ControllerMode) (f : Frame) :
  In settingsMode plain_modes ->
  target (init settingsMode) = black /\
  lastRGB (init settingsMode) = white /\
  fst (isStateChanged f (with_timeout None (init settingsMode))) = true /\
  snd (tick f (with_timeout None (init settingsMode))) =
    [SetRGB 0 0 0; BroadcastRGB black] ++ lag_log f /\
  snd (onConnect f (init settingsMode)) =
    [SetRGB 255 0 0; SetRGB 0 255 0; SetRGB 0 0 255; SetRGB 0 0 0; SetRGB 0 0 0]
    ++ [SetRGB 0 0 0; BroadcastRGB black] ++ lag_log f /\
  lastRGB (fst (onConnect f (init settingsMode))) = black.
Proof.
  intros Hm.
  assert (Hm' : In (lightMode (with_timeout None (init settingsMode))) plain_modes)
    by exact Hm.
  split; [reflexivity|]. split; [reflexivity|].
  rewrite (isStateChanged_plain _ _ Hm').
  split; [reflexivity|].
  unfold onConnect. rewrite (tick_plain _ _ Hm'). simpl. auto.
Qed.

Lemma first_tick_pushes_black_witness :
  snd (onConnect (mkFrame white white false 4) (init "Pattern")) =
    [SetRGB 255 0 0; SetRGB 0 255 0; SetRGB 0 0 255; SetRGB 0 0 0; SetRGB 0 0 0;
     SetRGB 0 0 0; BroadcastRGB black].
Proof.
  assert (Hm : In "Pattern" plain_modes) by (simpl; auto).
  exact (proj1 (proj2 (proj2 (proj2 (proj2
    (first_tick_pushes_black "Pattern" (mkFrame white white false 4) Hm)))))).
Defined.

(** ** Door timers along a run *)

Ltac handler_cases :=
  unfold on_rgb_set, on_mode_set, on_all_clients_disconnected, call_setMode,
    setMode, on_door, on_disconnect, de_fire, fade_frame, updateModeAndLight,
    de_cancel, clearDoorFrameLoop;
  repeat case_if; cbn.

Ltac pair_of H :=
  let E1 := fresh "E" in
  let E2 := fresh "E" in
  apply Some_pair in H as [E1 E2]; cbn [fst snd] in E1, E2; subst.

(** Without the trailing edge of [de] no interval comes into being, and
    the callback of an interval that does not exist does not run. *)
Lemma step_no_fade (s s' : State) (e : Event) (es : list Effect) :
  doorFrameLoop s = None -> e <> DebounceFire -> step s e = Some (s', es) ->
  doorFrameLoop s' = None /\ e <> FadeFrame.
Proof.
  intros Hl Hne Hs. destruct e; simpl in Hs; try contradiction.
  - pair_of Hs. split; [|discriminate]. destruct isClient; handler_cases; auto.
  - pair_of Hs. split; [|discriminate]. handler_cases; auto.
  - pair_of Hs. split; [|discriminate]. handler_cases; auto.
  - pair_of Hs. split; [|discriminate]. handler_cases; auto.
  - rewrite Hl in Hs. discriminate Hs.
  - destruct (timeout s); [|discriminate]. pair_of Hs. split; [|discriminate].
    destruct (tick_frame f s) as (_ & _ & _ & _ & ->). exact Hl.
  - pair_of Hs. split; [|discriminate]. rewrite onConnect_state.
    destruct (tick_frame f (with_timeout None s)) as (_ & _ & _ & _ & ->).
    exact Hl.
  - pair_of Hs. split; [|discriminate]. exact Hl.
  - loop_frame s s' ConnectBegin es Hs. split; [congruence | discriminate].
  - loop_frame s s' (IntroWake i f) es Hs. split; [congruence | discriminate].
  - loop_frame s s' (OrphanTick f) es Hs. split; [congruence | discriminate].
Qed.

Lemma run_no_fade (evs : list Event) :
  forall s s' es,
    doorFrameLoop s = None -> ~ In DebounceFire evs ->
    run s evs = Some (s', es) ->
    doorFrameLoop s' = None /\ ~ In FadeFrame evs.
Proof.
  induction evs as [|e evs IH]; simpl; intros s s' es Hl Hn Hrun.
  - pair_of Hrun. auto.
  - destruct (step s e) as [[s1 es1]|] eqn:Hs; [|discriminate].
    destruct (run s1 evs) as [[s2 es2]|] eqn:Hr; [|discriminate].
    injection Hrun as <- <-.
    destruct (step_no_fade s s1 e es1 Hl) as [Hl1 Hne]; auto.
    destruct (IH s1 s2 es2 Hl1) as [Hl2 Hnf]; auto.
    split; [exact Hl2|]. intros [E | E]; [now apply Hne | now apply Hnf].
Qed.

(** With neither door timer pending, only a door-close event can make
    one pending. *)
Lemma step_door_idle (s s' : State) (e : Event) (es : list Effect) :
  de_pending s = false -> doorFrameLoop s = None -> e <> Door false ->
  step s e = Some (s', es) ->
  de_pending s' = false /\ doorFrameLoop s' = None /\
  e <> DebounceFire /\ e <> FadeFrame.
Proof.
  intros Hp Hl Hne Hs. destruct e; simpl in Hs.
  - pair_of Hs. destruct isClient; handler_cases; repeat split; auto; discriminate.
  - pair_of Hs. handler_cases; repeat split; auto; discriminate.
  - pair_of Hs. handler_cases; repeat split; auto; discriminate.
  - destruct level; [|contradiction]. pair_of Hs.
    handler_cases; repeat split; auto; discriminate.
  - rewrite Hp in Hs. discriminate Hs.
  - rewrite Hl in Hs. discriminate Hs.
  - destruct (timeout s); [|discriminate]. pair_of Hs.
    destruct (tick_frame f s) as (_ & _ & _ & -> & ->).
    repeat split; auto; discriminate.
  - pair_of Hs. rewrite onConnect_state.
    destruct (tick_frame f (with_timeout None s)) as (_ & _ & _ & -> & ->).
    repeat split; auto; discriminate.
  - pair_of Hs. repeat split; auto; discriminate.
  - loop_frame s s' ConnectBegin es Hs. repeat split; try congruence; discriminate.
  - loop_frame s s' (IntroWake i f) es Hs. repeat split; try congruence; discriminate.
  - loop_frame s s' (OrphanTick f) es Hs. repeat split; try congruence; discriminate.
Qed.

Lemma run_door_idle (evs : list Event) :
  forall s s' es,
    de_pending s = false -> doorFrameLoop s = None -> ~ In (Door false) evs ->
    run s evs = Some (s', es) ->
    de_pending s' = false /\ doorFrameLoop s' = None /\
    ~ In DebounceFire evs /\ ~ In FadeFrame evs.
Proof.
  induction evs as [|e evs IH]; simpl; intros s s' es Hp Hl Hn Hrun.
  - pair_of Hrun. auto.
  - destruct (step s e) as [[s1 es1]|] eqn:Hs; [|discriminate].
    destruct (run s1 evs) as [[s2 es2]|] eqn:Hr; [|discriminate].
    injection Hrun as <- <-.
    destruct (step_door_idle s s1 e es1 Hp Hl) as (Hp1 & Hl1 & Hd & Hf); auto.
    destruct (IH s1 s2 es2 Hp1 Hl1) as (Hp2 & Hl2 & Hd2 & Hf2); auto.
    repeat split; auto; intros [E | E]; auto.
Qed.

Lemma reachable_handler (h : Handler) (e : Event) (s : State) :
  reachable s -> step s e = Some (h s) -> reachable (fst (h s)).
Proof.
  intros Hr Hs. destruct (h s) as [s' es]. eapply reach_step; eauto.
Qed.

(** C8: when the door closes and opens again before the trailing edge
    of the debounce has fired, no interval exists and no fade frame
    runs between the two events, and after the door-open neither the
    debounce nor an interval is pending: no fade frame runs until the
    door closes another time. *)
Theorem reopened_door_never_fades
    (s s1 : State) (evs : list Event) (es1 : list Effect) :
  reachable s ->
  run (fst (on_door false s)) evs = Some (s1, es1) ->
  ~ In DebounceFire evs ->
  ~ In FadeFrame evs /\ doorFrameLoop s1 = None /\
  de_pending (fst (on_door true s1)) = false /\
  doorFrameLoop (fst (on_door true s1)) = None /\
  forall evs' s2 es2,
    ~ In (Door false) evs' ->
    run (fst (on_door true s1)) evs' = Some (s2, es2) ->
    ~ In DebounceFire evs' /\ ~ In FadeFrame evs' /\ doorFrameLoop s2 = None.
Proof.
  intros Hr Hrun Hn.
  assert (Hr0 : reachable (fst (on_door false s)))
    by (now apply (reachable_handler (on_door false) (Door false))).
  assert (Hl0 : doorFrameLoop (fst (on_door false s)) = None).
  { unfold on_door.
    destruct (String.eqb_spec (lightMode s) "ManualLocked") as [E | E].
    - simpl. now apply (inv_locked s (reachable_Inv s Hr)).
    - reflexivity. }
  destruct (run_no_fade evs _ _ _ Hl0 Hn Hrun) as [Hl1 Hnf].
  assert (Hr1 : reachable s1) by exact (reachable_run evs _ _ _ Hr0 Hrun).
  assert (Hidle : de_pending (fst (on_door true s1)) = false /\
                  doorFrameLoop (fst (on_door true s1)) = None).
  { unfold on_door.
    destruct (String.eqb_spec (lightMode s1) "ManualLocked") as [E | E].
    - simpl. now apply (inv_locked s1 (reachable_Inv s1 Hr1)).
    - simpl. auto. }
  destruct Hidle as [Hp2 Hl2].
  split; [exact Hnf|]. split; [exact Hl1|].
  split; [exact Hp2|]. split; [exact Hl2|].
  intros evs' s2 es2 Hnc Hrun2.
  destruct (run_door_idle evs' _ _ _ Hp2 Hl2 Hnc Hrun2) as (_ & Hl3 & Hd & Hf).
  auto.
Qed.

Lemma reopened_door_never_fades_witness :
  ~ In FadeFrame [Connect (mkFrame black black true 3);
                  Tick (mkFrame black black true 3)] /\
  de_pending (fst (on_door true (fst (tick (mkFrame black black true 3)
    (fst (onConnect (mkFrame black black true 3)
       (fst (on_door false (init "Manual"))))))))) = false.
Proof.
  assert (Hn : ~ In DebounceFire [Connect (mkFrame black black true 3);
                                  Tick (mkFrame black black true 3)]).
  { simpl. intros [H | [H | H]]; [discriminate H | discriminate H | exact H]. }
  destruct (reopened_door_never_fades (init "Manual") _
              [Connect (mkFrame black black true 3);
               Tick (mkFrame black black true 3)] _
              (reach_init "Manual") eq_refl Hn) as (H1 & _ & H2 & _).
  exact (conj H1 H2).
Defined.

(** ** Disconnect *)

Lemma device_writes_call_setMode (mode : ControllerMode) (s : State) :
  device_writes (snd (call_setMode mode s)) = [] /\
  timeout (fst (call_setMode mode s)) = timeout s.
Proof.
  unfold call_setMode, setMode.
  destruct (is_settable mode); [destruct (negb _)|]; auto.
Qed.







(** ** [onConnect] in stages *)

Lemma with_connecting_same (s : State) : with_connecting (connecting s) s = s.
Proof. now destruct s. Qed.












(** ** The fade-back *)

(** The test that ends the fade-back does not look at the green
    channel. *)
Lemma fade_done_ignores_green (c t : RGB) (green green' : Z) :
  fade_done (mkRGB (r c) green (b c)) (mkRGB (r t) green' (b t)) = fade_done c t.
Proof. reflexivity. Qed.

(** A frame that ends the animation has brought red and blue to the
    target and restores [lastMode]; the green it writes is the
    cursor's, whatever the target's green is. *)
Lemma fade_frame_completion (c : RGB) (s : State) :
  doorFrameLoop (fst (fade_frame c s)) = None ->
  lightMode (fst (fade_frame c s)) = lastMode s /\
  snd (fade_frame c s) =
    [SetRGB (r (target s)) (g (fade_cursor c (target s))) (b (target s));
     BroadcastMode (lastMode s); BroadcastRGB (target s)].
Proof.
  unfold fade_frame, fade_done.
  remember (fade_cursor c (target s)) as c' eqn:Ec. clear Ec.
  destruct (Z.eqb_spec (r c') (r (target s))) as [Er | Er];
    destruct (Z.eqb_spec (b c') (b (target s))) as [Eb | Eb];
    simpl; try discriminate.
  intros _. rewrite Er, Eb. auto.
Qed.

(** C1, evaluated on the code: a client sets (200,0,200) in mode
    [Manual], the colour is pushed, the door opens and closes, the
    debounce fires and the fade-back runs its 55 frames.  The 55th
    frame ends the animation and restores [Manual], but the last colour
    it writes to the device is (200,200,200), while the target still
    is (200,0,200); the frames of the tick loop that follow write
    nothing, so the device keeps the wrong green. *)
Theorem fade_back_leaves_green :
  exists s0 es0 s1 es1 s2 es2,
    run (init "Manual")
        [Connect (mkFrame black black true 3); RgbSet true 200 0 200;
         Tick (mkFrame black black true 3)] = Some (s0, es0) /\
    lightMode s0 = "Manual" /\ target s0 = mkRGB 200 0 200 /\
    lastRGB s0 = mkRGB 200 0 200 /\
    run s0 ([Door true; Door false; DebounceFire] ++ repeat FadeFrame 54)
      = Some (s1, es1) /\
    doorFrameLoop s1 = Some (mkRGB 201 201 201) /\ lightMode s1 = "Door" /\
    step s1 FadeFrame = Some (s2, es2) /\
    doorFrameLoop s2 = None /\ lightMode s2 = "Manual" /\
    target s2 = mkRGB 200 0 200 /\
    device_writes es2 = [SetRGB 200 200 200] /\
    forall f, device_writes (snd (tick f s2)) = [].
Proof.
  do 6 eexists.
  split; [vm_compute; reflexivity|].
  do 3 (split; [reflexivity|]).
  split; [vm_compute; reflexivity|].
  do 2 (split; [reflexivity|]).
  split; [vm_compute; reflexivity|].
  do 4 (split; [reflexivity|]).
  intros f. rewrite tick_plain by (simpl; auto). simpl.
  apply device_writes_lag_log.
Qed.

(** * Further properties of the handlers *)

(** ** "rgb-set" *)

Lemma on_rgb_set_state (isClient : bool) (red green blue : Z) (s : State) :
  fst (on_rgb_set isClient red green blue s) =
    with_target (clamped red green blue)
      (with_de_pending false (with_doorFrameLoop None
         (with_modes (if isClient then "Manual" else "AudioRaw") s))).
Proof. destruct isClient; reflexivity. Qed.

(** ** [clamp] and the fade-back on every number *)

Lemma Qle_bool_inject_Z (a b : Z) :
  Qle_bool (inject_Z a) (inject_Z b) = (a <=? b)%Z.
Proof. unfold Qle_bool. cbn. now rewrite !Z.mul_1_r. Qed.

Lemma Qeq_bool_inject_Z (a b : Z) :
  Qeq_bool (inject_Z a) (inject_Z b) = (a =? b)%Z.
Proof. unfold Qeq_bool. cbn. now rewrite !Z.mul_1_r. Qed.









(** A finite number that is an integer is the image of its floor. *)
Lemma js_int_floor (x : JsNumber) :
  js_is_int_upto_255 x = true ->
  (js_floor x <= 255)%Z /\
  forall c, js_gt c x = (c >? js_floor x)%Z /\ js_eq c x = (c =? js_floor x)%Z.
Proof.
  destruct x as [q| | |]; cbn; try discriminate. intros H.
  apply andb_true_iff in H as [Hq Hle]. apply Z.leb_le in Hle.
  apply Qeq_bool_iff in Hq. split; [exact Hle|]. intros c.
  assert (E1 : Qle_bool (inject_Z c) q = (c <=? Qfloor q)%Z).
  { rewrite <- Qle_bool_inject_Z. apply eq_true_iff_eq.
    rewrite !Qle_bool_iff. now rewrite Hq. }
  assert (E2 : Qeq_bool (inject_Z c) q = (c =? Qfloor q)%Z).
  { rewrite <- Qeq_bool_inject_Z. apply eq_true_iff_eq.
    rewrite !Qeq_bool_iff. now rewrite Hq. }
  rewrite E1, E2. split; [|reflexivity].
  destruct (Z.leb_spec c (Qfloor q)), (Z.gtb_spec c (Qfloor q)); try lia;
    reflexivity.
Qed.

(** A cursor up to 255 never equals a number that is no integer up to
    255. *)
Lemma js_eq_never (x : JsNumber) (c : Z) :
  js_is_int_upto_255 x = false -> (c <= 255)%Z -> js_eq c x = false.
Proof.
  destruct x as [q| | |]; cbn; try reflexivity. intros H Hc.
  destruct (Qeq_bool (inject_Z c) q) eqn:E; [|reflexivity].
  apply Qeq_bool_iff in E.
  assert (Hf : Qfloor q = c)
    by (rewrite <- (Qfloor_comp _ _ E); apply Qfloor_Z).
  rewrite Hf, (Qeq_eq_bool _ _ E) in H. cbn in H.
  apply Z.leb_gt in H. lia.
Qed.

Lemma fade_cursor_js_le (c : RGB) (t : JsRGB) :
  (r (fade_cursor_js c t) <= r c)%Z /\ (b (fade_cursor_js c t) <= b c)%Z.
Proof.
  unfold fade_cursor_js. cbn [r b].
  destruct (js_gt (r c) (jr t)), (js_gt (b c) (jb t)); lia.
Qed.

(** With a red or a blue that is no integer up to 255 the end test
    never holds. *)
Lemma fade_never_ends (t : JsRGB) (n : nat) :
  forall c,
    (r c <= 255)%Z -> (b c <= 255)%Z ->
    js_is_int_upto_255 (jr t) && js_is_int_upto_255 (jb t) = false ->
    fade_ends_within n c t = false.
Proof.
  induction n as [|n IH]; intros c Hr Hb Ht; [reflexivity|].
  cbn [fade_ends_within].
  destruct (fade_cursor_js_le c t) as [Hr' Hb'].
  rewrite (IH (fade_cursor_js c t)) by (assumption || lia).
  rewrite orb_false_r. unfold fade_done_js.
  apply andb_false_iff in Ht as [Ht | Ht].
  - rewrite (js_eq_never (jr t) _ Ht) by lia. reflexivity.
  - rewrite (js_eq_never (jb t) _ Ht) by lia. now rewrite !andb_false_r.
Qed.

(** With integers up to 255 for red and blue, whether the end test
    holds within [n] callbacks, for a cursor that has run [j]
    callbacks since white. *)
Lemma fade_ends_within_int (t : JsRGB) (n : nat) :
  js_is_int_upto_255 (jr t) && js_is_int_upto_255 (jb t) = true ->
  forall (j : Z) (c : RGB),
    r c = Z.max (js_floor (jr t)) (255 - j) ->
    b c = Z.max (js_floor (jb t)) (255 - j) ->
    fade_ends_within n c t =
      (0 <? n)%nat
      && (255 - Z.min (js_floor (jr t)) (js_floor (jb t)) <=? j + Z.of_nat n)%Z.
Proof.
  intros Ht. apply andb_true_iff in Ht as [Hr Hb].
  destruct (js_int_floor (jr t) Hr) as [_ Er].
  destruct (js_int_floor (jb t) Hb) as [_ Eb].
  induction n as [|n IH]; intros j c Hcr Hcb; [reflexivity|].
  cbn [fade_ends_within].
  assert (Hcr' : r (fade_cursor_js c t) = Z.max (js_floor (jr t)) (255 - (j + 1))).
  { unfold fade_cursor_js. cbn [r]. rewrite (proj1 (Er (r c))).
    destruct (Z.gtb_spec (r c) (js_floor (jr t))); lia. }
  assert (Hcb' : b (fade_cursor_js c t) = Z.max (js_floor (jb t)) (255 - (j + 1))).
  { unfold fade_cursor_js. cbn [b]. rewrite (proj1 (Eb (b c))).
    destruct (Z.gtb_spec (b c) (js_floor (jb t))); lia. }
  rewrite (IH (j + 1)%Z (fade_cursor_js c t) Hcr' Hcb').
  unfold fade_done_js.
  rewrite (proj2 (Er (r (fade_cursor_js c t)))),
    (proj2 (Eb (b (fade_cursor_js c t)))), Hcr', Hcb'.
  destruct (Z.eqb_spec (Z.max (js_floor (jr t)) (255 - (j + 1))) (js_floor (jr t))),
    (Z.eqb_spec (Z.max (js_floor (jb t)) (255 - (j + 1))) (js_floor (jb t))),
    (Z.leb_spec (255 - Z.min (js_floor (jr t)) (js_floor (jb t)))
       (j + Z.of_nat (S n))),
    (Z.leb_spec (255 - Z.min (js_floor (jr t)) (js_floor (jb t)))
       (j + 1 + Z.of_nat n));
    destruct n; cbn; try reflexivity; lia.
Qed.



(** ** "rgb-set" *)



Lemma js_is_int_after_clamp (x : JsNumber) :
  js_is_int_upto_255 (clamp_js x) = js_int_or_outside x.
Proof.
  destruct x as [q| | |]; try reflexivity. cbn.
  destruct (Qle_bool q (inject_Z 255)) eqn:E1.
  - destruct (Qle_bool (inject_Z 0) q) eqn:E2; cbn.
    + rewrite !orb_false_r.
      destruct (Qeq_bool (inject_Z (Qfloor q)) q) eqn:E3; [|reflexivity].
      cbn. apply Z.leb_le. apply Qle_bool_iff in E1.
      apply Qeq_bool_iff in E3. rewrite <- E3 in E1.
      now rewrite <- Zle_Qle in E1.
    + now rewrite orb_true_r.
  - rewrite Qle_bool_inject_Z. cbn. now rewrite orb_true_r.
Qed.

(** X21: "rgb-set" and the fade-back after it.  A fade-back towards
    the colour "rgb-set" has stored passes its end test at some
    callback exactly when red and blue of the message each are an
    integer or a number outside of 0..255 (which [clamp] turns into 0
    or 255); when red or blue is a fraction within 0..255 or NaN, the
    interval is never cleared by its callback. *)
Theorem fade_after_rgb_set (red green blue : JsNumber) :
  ((exists n, fade_ends_within n white (rgb_set_js red green blue) = true) <->
   js_int_or_outside red && js_int_or_outside blue = true) /\
  (js_int_or_outside red && js_int_or_outside blue = false ->
   forall n, fade_ends_within n white (rgb_set_js red green blue) = false).
Proof.
  rewrite <- (js_is_int_after_clamp red), <- (js_is_int_after_clamp blue).
  change (clamp_js red) with (jr (rgb_set_js red green blue)).
  change (clamp_js blue) with (jb (rgb_set_js red green blue)).
  split.
  - split.
    + intros [n Hn].
      destruct (js_is_int_upto_255 _ && js_is_int_upto_255 _) eqn:E;
        [reflexivity|].
      rewrite fade_never_ends in Hn; [discriminate Hn | cbn; lia | cbn; lia
                                     | exact E].
    + intros Ht. exists (fade_length_js (rgb_set_js red green blue)).
      pose proof Ht as Ht'. apply andb_true_iff in Ht' as [Hr Hb].
      destruct (js_int_floor _ Hr) as [Lr _].
      destruct (js_int_floor _ Hb) as [Lb _].
      rewrite (fade_ends_within_int _ _ Ht 0 white) by (cbn [r b white]; lia).
      unfold fade_length_js. rewrite andb_true_iff, Nat.ltb_lt, Z.leb_le. lia.
  - intros Ht n. apply fade_never_ends; [cbn; lia | cbn; lia | exact Ht].
Qed.

Lemma fade_after_rgb_set_witness :
  fade_ends_within 1000 white
    (rgb_set_js (Finite (25 # 2)) (js_of_Z 7) (js_of_Z 255)) = false /\
  exists n,
    fade_ends_within n white
      (rgb_set_js (Finite (601 # 2)) NaN (js_of_Z (-3))) = true.
Proof.
  split.
  - exact (proj2 (fade_after_rgb_set (Finite (25 # 2)) (js_of_Z 7) (js_of_Z 255))
             eq_refl 1000%nat).
  - exact (proj2 (proj1 (fade_after_rgb_set (Finite (601 # 2)) NaN
                           (js_of_Z (-3)))) eq_refl).
Defined.

(** ** Frames of the other modes *)

Lemma rgb_eqb_sym_order (x y : RGB) :
  negb ((r x =? r y)%Z && (b x =? b y)%Z && (g x =? g y)%Z) = negb (rgb_eqb x y).
Proof.
  unfold rgb_eqb.
  destruct (r x =? r y)%Z, (g x =? g y)%Z, (b x =? b y)%Z; reflexivity.
Qed.

Lemma tick_autopilot (f : Frame) (s : State) :
  lightMode s = "AutoPilot" ->
  tick f s =
    if rgb_eqb (scheduler_state f) (lastRGB s)
    then (with_timeout (Some (next_delay f)) (with_target (scheduler_state f) s),
          lag_log f)
    else (with_timeout (Some (next_delay f))
            (with_lastRGB (scheduler_state f) (with_target (scheduler_state f) s)),
          [SetRGB (r (scheduler_state f)) (g (scheduler_state f))
             (b (scheduler_state f));
           BroadcastRGB (scheduler_state f)] ++ lag_log f).
Proof.
  intros Hm.
  assert (E1 : (lightMode s =? "Audio") = false) by now rewrite Hm.
  assert (E2 : (lightMode s =? "AudioRaw") = false) by now rewrite Hm.
  assert (E3 : (lightMode s =? "Door") = false) by now rewrite Hm.
  assert (E4 : (lightMode s =? "AutoPilot") = true) by now rewrite Hm.
  unfold tick, isStateChanged, changeState, next_delay, lag_log.
  rewrite E1, E2, E3, E4. cbn [orb].
  cbn [target lastRGB lightMode with_target].
  rewrite rgb_eqb_sym_order.
  destruct (rgb_eqb (scheduler_state f) (lastRGB s)); cbn [negb].
  - cbn [lightMode with_target]. rewrite E1, E2. cbn [orb].
    destruct (elapsed f >? SERVER_FPS)%Z; reflexivity.
  - cbn [lightMode with_target]. rewrite E1.
    cbn [lightMode with_target with_lastRGB]. rewrite E1, E2. cbn [orb].
    destruct (elapsed f >? SERVER_FPS)%Z; reflexivity.
Qed.

(** X5: a frame in mode [AutoPilot] takes the colour of the pattern
    generator as the target; when it differs from the last-pushed
    colour it is written to the device once and broadcast, otherwise
    nothing is written.  Either way target and last-pushed colour both
    are the generator's colour afterwards. *)
Theorem tick_autopilot_follows_scheduler (f : Frame) (s : State) :
  lightMode s = "AutoPilot" ->
  target (fst (tick f s)) = scheduler_state f /\
  lastRGB (fst (tick f s)) = scheduler_state f /\
  (scheduler_state f = lastRGB s -> device_writes (snd (tick f s)) = []) /\
  (scheduler_state f <> lastRGB s ->
   device_writes (snd (tick f s)) =
     [SetRGB (r (scheduler_state f)) (g (scheduler_state f))
        (b (scheduler_state f))] /\
   In (BroadcastRGB (scheduler_state f)) (snd (tick f s))).
Proof.
  intros Hm. rewrite (tick_autopilot f s Hm).
  destruct (rgb_eqb (scheduler_state f) (lastRGB s)) eqn:E; cbn [fst snd].
  - apply rgb_eqb_eq in E. split; [reflexivity|]. split; [now rewrite E|].
    split; [intros _; apply device_writes_lag_log | intros H; contradiction].
  - split; [reflexivity|]. split; [reflexivity|]. split.
    + intros H. apply rgb_eqb_eq in H. congruence.
    + intros _. rewrite device_writes_app, device_writes_lag_log.
      split; [reflexivity | simpl; auto].
Qed.

Lemma tick_autopilot_follows_scheduler_witness :
  device_writes (snd (tick (mkFrame (mkRGB 1 2 3) black true 4) (init "AutoPilot")))
    = [SetRGB 1 2 3] /\
  device_writes (snd (tick (mkFrame white black true 4) (init "AutoPilot"))) = [].
Proof.
  split.
  - apply (tick_autopilot_follows_scheduler
             (mkFrame (mkRGB 1 2 3) black true 4) (init "AutoPilot") eq_refl).
    discriminate.
  - apply (tick_autopilot_follows_scheduler
             (mkFrame white black true 4) (init "AutoPilot") eq_refl).
    reflexivity.
Defined.

Lemma tick_audio (f : Frame) (s : State) :
  lightMode s = "Audio" ->
  tick f s =
    if possible f
    then (with_timeout (Some 0)
            (with_target (audio_rgb f) (with_lastRGB (audio_rgb f) s)),
          [SetIfPossible (r (audio_rgb f)) (g (audio_rgb f)) (b (audio_rgb f))
             true;
           BroadcastRGB (audio_rgb f)] ++ lag_log f)
    else (with_timeout (Some 0) s,
          [SetIfPossible (r (audio_rgb f)) (g (audio_rgb f)) (b (audio_rgb f))
             false] ++ lag_log f).
Proof.
  intros Hm.
  assert (E1 : (lightMode s =? "Audio") = true) by now rewrite Hm.
  unfold tick, isStateChanged, changeState, lag_log.
  rewrite E1. cbn [orb]. rewrite E1.
  destruct (possible f); cbn [lightMode with_target with_lastRGB];
    rewrite E1; cbn [orb]; destruct (elapsed f >? SERVER_FPS)%Z; reflexivity.
Qed.

Lemma tick_audio_raw (f : Frame) (s : State) :
  lightMode s = "AudioRaw" ->
  tick f s =
    (with_timeout (Some 0) (with_lastRGB (target s) s),
     [SetRGB (r (target s)) (g (target s)) (b (target s));
      BroadcastRGB (target s)] ++ lag_log f).
Proof.
  intros Hm.
  assert (E1 : (lightMode s =? "Audio") = false) by now rewrite Hm.
  assert (E2 : (lightMode s =? "AudioRaw") = true) by now rewrite Hm.
  unfold tick, isStateChanged, changeState, lag_log.
  rewrite E1, E2. cbn [orb]. rewrite E1.
  cbn [lightMode with_lastRGB target]. rewrite E1, E2. cbn [orb].
  destruct (elapsed f >? SERVER_FPS)%Z; reflexivity.
Qed.

Lemma tick_door (f : Frame) (s : State) :
  lightMode s = "Door" ->
  tick f s = (with_timeout (Some (next_delay f)) s, lag_log f).
Proof.
  intros Hm.
  assert (E1 : (lightMode s =? "Audio") = false) by now rewrite Hm.
  assert (E2 : (lightMode s =? "AudioRaw") = false) by now rewrite Hm.
  assert (E3 : (lightMode s =? "Door") = true) by now rewrite Hm.
  unfold tick, isStateChanged, next_delay, lag_log.
  rewrite E1, E2, E3. cbn [orb]. rewrite E1, E2. cbn [orb].
  destruct (elapsed f >? SERVER_FPS)%Z; reflexivity.
Qed.

(** A mode without a case of its own, whatever string it is. *)
Lemma tick_other (f : Frame) (s : State) :
  lightMode s <> "Audio" -> lightMode s <> "AudioRaw" ->
  lightMode s <> "Door" -> lightMode s <> "AutoPilot" ->
  tick f s =
    if rgb_eqb (target s) (lastRGB s)
    then (with_timeout (Some (next_delay f)) s, lag_log f)
    else (with_timeout (Some (next_delay f)) (with_lastRGB (target s) s),
          [SetRGB (r (target s)) (g (target s)) (b (target s));
           BroadcastRGB (target s)] ++ lag_log f).
Proof.
  intros N1 N2 N3 N4.
  apply String.eqb_neq in N1, N2, N3, N4.
  unfold tick, isStateChanged, changeState, next_delay, lag_log.
  rewrite N1, N2, N3, N4. cbn [orb]. rewrite rgb_eqb_sym_order.
  destruct (rgb_eqb (target s) (lastRGB s)); cbn [negb].
  - rewrite N1, N2. cbn [orb].
    destruct (elapsed f >? SERVER_FPS)%Z; reflexivity.
  - rewrite N1. cbn [lightMode with_lastRGB target]. rewrite N1, N2. cbn [orb].
    destruct (elapsed f >? SERVER_FPS)%Z; reflexivity.
Qed.

Lemma not_In_lag_log (f : Frame) (e : Effect) :
  e <> LogLagging -> ~ In e (lag_log f).
Proof.
  unfold lag_log. destruct (_ >? _)%Z; simpl; intuition congruence.
Qed.

(** X6: a frame in mode [Audio] asks the device once, through
    [setIfPossible], for the analyser's colour and sets its timer with
    delay 0.  When the device accepts, that colour becomes target and
    last-pushed colour and is broadcast; when it refuses, no colour of
    the state changes and nothing is broadcast. *)
Theorem tick_audio_admission (f : Frame) (s : State) :
  lightMode s = "Audio" ->
  timeout (fst (tick f s)) = Some 0 /\
  device_writes (snd (tick f s)) =
    [SetIfPossible (r (audio_rgb f)) (g (audio_rgb f)) (b (audio_rgb f))
       (possible f)] /\
  (possible f = true ->
   target (fst (tick f s)) = audio_rgb f /\
   lastRGB (fst (tick f s)) = audio_rgb f /\
   In (BroadcastRGB (audio_rgb f)) (snd (tick f s))) /\
  (possible f = false ->
   target (fst (tick f s)) = target s /\
   lastRGB (fst (tick f s)) = lastRGB s /\
   forall c, ~ In (BroadcastRGB c) (snd (tick f s))).
Proof.
  intros Hm. rewrite (tick_audio f s Hm).
  destruct (possible f); cbn [fst snd timeout with_timeout];
    rewrite device_writes_app, device_writes_lag_log;
    (split; [reflexivity|]); (split; [reflexivity|]);
    (split; intros E; [|]); try discriminate E.
  - simpl. auto.
  - repeat split; try reflexivity. intros c H.
    apply in_app_or in H as [[H | []] | H]; [discriminate H|].
    revert H. apply not_In_lag_log. discriminate.
Qed.

Lemma tick_audio_admission_witness :
  target (fst (tick (mkFrame black (mkRGB 5 6 7) true 1) (init "Audio")))
    = mkRGB 5 6 7 /\
  lastRGB (fst (tick (mkFrame black (mkRGB 5 6 7) false 1) (init "Audio")))
    = white.
Proof.
  destruct (tick_audio_admission (mkFrame black (mkRGB 5 6 7) true 1)
              (init "Audio") eq_refl) as (_ & _ & H1 & _).
  destruct (tick_audio_admission (mkFrame black (mkRGB 5 6 7) false 1)
              (init "Audio") eq_refl) as (_ & _ & _ & H2).
  exact (conj (proj1 (H1 eq_refl)) (proj1 (proj2 (H2 eq_refl)))).
Defined.

(** X7: in mode [AudioRaw] there is no change detection: each frame
    writes the target to the device, so a run of n frames writes it n
    times, also when it never changes. *)
Theorem ticks_audio_raw_always_write (fs : list Frame) :
  forall s, lightMode s = "AudioRaw" -> timeout s <> None ->
  exists s' es,
    run s (map Tick fs) = Some (s', es) /\
    device_writes es =
      repeat (SetRGB (r (target s)) (g (target s)) (b (target s))) (length fs) /\
    target s' = target s /\ lightMode s' = "AudioRaw".
Proof.
  induction fs as [|f fs IH]; intros s Hm Ht.
  - exists s, []. auto.
  - cbn [map run step]. destruct (timeout s) eqn:E; [|contradiction].
    rewrite (tick_audio_raw f s Hm).
    destruct (IH (with_timeout (Some 0) (with_lastRGB (target s) s)))
      as (s' & es & Hrun & Hw & Ht' & Hm'); [exact Hm | discriminate |].
    rewrite Hrun. eexists. eexists. split; [reflexivity|].
    rewrite !device_writes_app, device_writes_lag_log, Hw.
    cbn [target with_timeout with_lastRGB] in *. auto.
Qed.

Lemma ticks_audio_raw_always_write_witness :
  exists s' es,
    run (with_timeout (Some 0) (init "AudioRaw"))
        (map Tick [mkFrame white white true 1; mkFrame white white true 2])
      = Some (s', es) /\
    device_writes es = [SetRGB 0 0 0; SetRGB 0 0 0] /\
    target s' = black /\ lightMode s' = "AudioRaw".
Proof.
  assert (N : Some 0 <> @None Z) by discriminate.
  exact (ticks_audio_raw_always_write
           [mkFrame white white true 1; mkFrame white white true 2]
           (with_timeout (Some 0) (init "AudioRaw")) eq_refl N).
Defined.

(** X8: while the mode is [Door] the tick loop runs but is silent:
    any number of frames only logs lagging lines; nothing is written to
    the device or broadcast, and target and last-pushed colour stay as
    they are, also when they differ. *)
Theorem ticks_door_silent (fs : list Frame) :
  forall s, lightMode s = "Door" -> timeout s <> None ->
  exists s' es,
    run s (map Tick fs) = Some (s', es) /\
    Forall (eq LogLagging) es /\
    target s' = target s /\ lastRGB s' = lastRGB s /\ lightMode s' = "Door" /\
    timeout s' <> None.
Proof.
  induction fs as [|f fs IH]; intros s Hm Ht.
  - exists s, []. auto 10.
  - cbn [map run step]. destruct (timeout s) eqn:E; [|contradiction].
    rewrite (tick_door f s Hm).
    destruct (IH (with_timeout (Some (next_delay f)) s))
      as (s' & es & Hrun & Hw & Ht' & Hl' & Hm' & Hp); [exact Hm | discriminate |].
    rewrite Hrun. eexists. eexists. split; [reflexivity|].
    split; [|auto]. apply Forall_app. split; [|exact Hw].
    unfold lag_log. destruct (_ >? _)%Z; auto.
Qed.

Lemma ticks_door_silent_witness :
  exists s' es,
    run (with_timeout (Some 0) (fst (on_door true (init "Manual"))))
        (map Tick [mkFrame black black true 1; mkFrame black black true 99])
      = Some (s', es) /\
    Forall (eq LogLagging) es /\
    target s' = black /\ lastRGB s' = white /\ lightMode s' = "Door" /\
    timeout s' <> None.
Proof.
  assert (N : Some 0 <> @None Z) by discriminate.
  exact (ticks_door_silent
           [mkFrame black black true 1; mkFrame black black true 99]
           (with_timeout (Some 0) (fst (on_door true (init "Manual"))))
           eq_refl N).
Defined.

(** ** The timer of a frame *)

Lemma tick_timeout_value (f : Frame) (s : State) :
  timeout (fst (tick f s)) = Some (frame_delay f (lightMode s)).
Proof.
  unfold tick, frame_delay.
  pose proof (isStateChanged_frame f s) as Hi.
  destruct (isStateChanged f s) as [changed s1]. cbn [snd] in Hi.
  destruct Hi as (Hi & _).
  assert (Hc : lightMode
                 (fst (if changed then changeState f s1 else (s1, []))) =
               lightMode s).
  { destruct changed; [|exact Hi].
    destruct (changeState_frame f s1) as (-> & _). exact Hi. }
  destruct (if changed then changeState f s1 else (s1, [])) as [s2 es].
  cbn [fst] in Hc. rewrite Hc.
  destruct (elapsed f >? SERVER_FPS)%Z; reflexivity.
Qed.

Lemma changeState_no_log (f : Frame) (s : State) :
  ~ In LogLagging (snd (changeState f s)).
Proof.
  unfold changeState. repeat case_if; simpl; intuition discriminate.
Qed.

Lemma tick_effects_split (f : Frame) (s : State) :
  exists es0, snd (tick f s) = es0 ++ lag_log f /\ ~ In LogLagging es0.
Proof.
  unfold tick, lag_log.
  destruct (isStateChanged f s) as [changed s1].
  pose proof (changeState_no_log f s1) as Hn.
  destruct changed.
  - destruct (changeState f s1) as [s2 es]. exists es.
    destruct (elapsed f >? SERVER_FPS)%Z; cbn [snd] in *;
      rewrite ?app_nil_r; auto.
  - exists []. destruct (elapsed f >? SERVER_FPS)%Z; cbn [snd]; auto.
Qed.

(** X9: when the clock did not run backwards during a frame, the timer
    the frame sets has a delay between 0 and the frame interval: 0
    after an overrun and in the modes [Audio] and [AudioRaw], the
    interval minus the processing time otherwise.  The lagging line is
    logged exactly when the processing time exceeds the interval. *)
Theorem tick_delay_bounds (f : Frame) (s : State) :
  0 <= elapsed f ->
  exists d,
    timeout (fst (tick f s)) = Some d /\ 0 <= d <= SERVER_FPS /\
    (lightMode s = "Audio" \/ lightMode s = "AudioRaw" -> d = 0) /\
    (elapsed f > SERVER_FPS -> d = 0) /\
    (lightMode s <> "Audio" -> lightMode s <> "AudioRaw" ->
     elapsed f <= SERVER_FPS -> d = SERVER_FPS - elapsed f) /\
    (In LogLagging (snd (tick f s)) <-> elapsed f > SERVER_FPS).
Proof.
  intros H0. exists (frame_delay f (lightMode s)).
  split; [apply tick_timeout_value|].
  assert (Hfps : SERVER_FPS = 50) by reflexivity.
  unfold frame_delay.
  destruct (tick_effects_split f s) as (es0 & -> & Hn). unfold lag_log.
  destruct (Z.gtb_spec (elapsed f) SERVER_FPS) as [Hlag | Hlag].
  - repeat split; try lia.
    intros _. apply in_or_app. right. simpl. auto.
  - destruct (String.eqb_spec (lightMode s) "Audio") as [E1 | E1];
      destruct (String.eqb_spec (lightMode s) "AudioRaw") as [E2 | E2];
      cbn [orb]; rewrite app_nil_r;
      repeat split; try lia; try contradiction; try tauto;
      intros [H | H]; congruence.
Qed.

Lemma tick_delay_bounds_witness :
  exists d,
    timeout (fst (tick (mkFrame black black true 20) (init "Pattern"))) = Some d /\
    0 <= d <= SERVER_FPS.
Proof.
  assert (H0 : 0 <= elapsed (mkFrame black black true 20)) by (cbn; lia).
  destruct (tick_delay_bounds (mkFrame black black true 20) (init "Pattern") H0)
    as (d & H1 & H2 & _).
  exists d. exact (conj H1 H2).
Defined.

(** X10: after a frame in any mode but [Door], the last-pushed colour
    equals the target, unless the mode is [Audio] and the device
    refused the write. *)
Theorem tick_synchronises_last_pushed (f : Frame) (s : State) :
  lightMode s <> "Door" ->
  (lightMode s = "Audio" -> possible f = true) ->
  lastRGB (fst (tick f s)) = target (fst (tick f s)).
Proof.
  intros Hd Ha.
  destruct (String.eqb_spec (lightMode s) "Audio") as [E1 | E1].
  { rewrite (tick_audio f s E1), (Ha E1). reflexivity. }
  destruct (String.eqb_spec (lightMode s) "AudioRaw") as [E2 | E2].
  { rewrite (tick_audio_raw f s E2). reflexivity. }
  destruct (String.eqb_spec (lightMode s) "AutoPilot") as [E3 | E3].
  { rewrite (tick_autopilot f s E3).
    destruct (rgb_eqb _ _) eqn:E; [|reflexivity].
    apply rgb_eqb_eq in E. cbn. congruence. }
  rewrite (tick_other f s E1 E2 Hd E3).
  destruct (rgb_eqb _ _) eqn:E; [|reflexivity].
  apply rgb_eqb_eq in E. cbn. congruence.
Qed.

Lemma tick_synchronises_last_pushed_witness :
  lastRGB (fst (tick (mkFrame (mkRGB 4 5 6) black true 1) (init "AutoPilot")))
    = target (fst (tick (mkFrame (mkRGB 4 5 6) black true 1) (init "AutoPilot"))).
Proof.
  apply tick_synchronises_last_pushed.
  - discriminate.
  - discriminate.
Defined.

(** ** Modes along a run *)

Lemma call_setMode_state (mode : ControllerMode) (s : State) :
  fst (call_setMode mode s) =
    if is_settable mode
    then with_de_pending false (with_doorFrameLoop None (with_modes mode s))
    else s.
Proof. unfold call_setMode, setMode. now destruct (is_settable mode). Qed.

Lemma changeState_no_mode_effect (f : Frame) (s : State) (e : Effect) :
  In e (snd (changeState f s)) -> is_mode_effect e = false.
Proof.
  unfold changeState. repeat case_if; simpl; intros H;
    repeat (destruct H as [H | H]; [now subst|]); destruct H.
Qed.

Lemma tick_no_mode_effect (f : Frame) (s : State) (e : Effect) :
  In e (snd (tick f s)) -> is_mode_effect e = false.
Proof.
  unfold tick. destruct (isStateChanged f s) as [changed s1].
  pose proof (changeState_no_mode_effect f s1 e) as Hc.
  destruct changed.
  - destruct (changeState f s1) as [s2 es]. cbn [snd] in Hc.
    destruct (elapsed f >? SERVER_FPS)%Z; cbn [snd]; [|exact Hc].
    intros H. apply in_app_or in H as [H | [H | []]]; [auto | now subst].
  - destruct (elapsed f >? SERVER_FPS)%Z; cbn [snd]; simpl;
      intros H; repeat (destruct H as [H | H]; [now subst|]); destruct H.
Qed.

Lemma onConnect_no_mode_effect (f : Frame) (s : State) (e : Effect) :
  In e (snd (onConnect f s)) -> is_mode_effect e = false.
Proof.
  unfold onConnect.
  pose proof (tick_no_mode_effect f (with_timeout None s) e) as Ht.
  destruct (tick f (with_timeout None s)) as [s2 es]. cbn [snd] in *.
  intros H. apply in_app_or in H as [H | H]; [|auto].
  simpl in H. repeat (destruct H as [H | H]; [now subst|]). destruct H.
Qed.

Lemma intro_colour_no_mode_effect (k : nat) (s : State) :
  is_mode_effect (intro_colour k s) = false.
Proof. do 4 (destruct k as [|k]; [reflexivity|]). reflexivity. Qed.

(** The events of the connection and of the loop say nothing about the
    mode. *)
Lemma step_loop_no_mode_effect
    (s s' : State) (e : Event) (es : list Effect) (x : Effect) :
  is_loop_event e = true -> step s e = Some (s', es) -> In x es ->
  is_mode_effect x = false.
Proof.
  intros He Hs Hin. destruct e; try discriminate He; simpl in Hs.
  - destruct (timeout s); [|discriminate]. pair_of Hs.
    now apply tick_no_mode_effect in Hin.
  - pair_of Hs. now apply onConnect_no_mode_effect in Hin.
  - pair_of Hs. destruct Hin.
  - pair_of Hs. destruct Hin.
  - apply intro_wake_cases in Hs as (k & _ & [(_ & _ & ->) | (_ & _ & ->)]).
    + destruct Hin as [<- | []]. apply intro_colour_no_mode_effect.
    + destruct Hin as [<- | Hin]; [apply intro_colour_no_mode_effect|].
      now apply tick_no_mode_effect in Hin.
  - destruct (orphans s) as [|n]; [discriminate|]. injection Hs as Hs.
    destruct (tick_call_state f (with_orphans n s)) as [_ E].
    rewrite Hs in E. cbn [snd] in E. subst es.
    now apply tick_no_mode_effect in Hin.
Qed.

Ltac loop_mode_case s s' e es Hs :=
  let H := fresh "H" in
  loop_frame s s' e es Hs;
  repeat split; intros; try congruence;
  match goal with
  | H : In _ es |- _ =>
      apply (step_loop_no_mode_effect s s' e es _ eq_refl Hs) in H;
      discriminate H
  end.

Ltac no_mode_effect Hin lem :=
  apply lem in Hin; discriminate Hin.

Lemma call_setMode_mode_broadcast (mode : ControllerMode) (s : State) :
  (forall m, In (BroadcastMode m) (snd (call_setMode mode s)) ->
             m = lightMode (fst (call_setMode mode s))) /\
  (lightMode (fst (call_setMode mode s)) <> lightMode s ->
   In (BroadcastMode (lightMode (fst (call_setMode mode s))))
      (snd (call_setMode mode s))) /\
  (In SaveSettings (snd (call_setMode mode s)) ->
   lightMode (fst (call_setMode mode s)) <> lightMode s /\
   controllerMode (fst (call_setMode mode s)) =
     lightMode (fst (call_setMode mode s)) /\
   is_settable (lightMode (fst (call_setMode mode s))) = true).
Proof.
  unfold call_setMode, setMode.
  destruct (is_settable mode) eqn:Eset; cbn;
    [destruct (String.eqb_spec (lightMode s) mode) as [E | E]; cbn|];
    repeat split; intros; intuition (try discriminate; try congruence).
Qed.

(** What a step tells the clients about the mode. *)
Lemma step_mode_broadcast (s s' : State) (e : Event) (es : list Effect) :
  step s e = Some (s', es) ->
  (forall m, In (BroadcastMode m) es -> m = lightMode s') /\
  (lightMode s' <> lightMode s -> In (BroadcastMode (lightMode s')) es) /\
  (In SaveSettings es ->
   lightMode s' <> lightMode s /\ controllerMode s' = lightMode s' /\
   is_settable (lightMode s') = true).
Proof.
  intros Hs. destruct e; simpl in Hs.
  - pair_of Hs. unfold on_rgb_set.
    pose proof (call_setMode_mode_broadcast
                  (if isClient then "Manual" else "AudioRaw") s) as H.
    destruct (call_setMode _ s) as [s1 es1]. exact H.
  - pair_of Hs. apply call_setMode_mode_broadcast.
  - pair_of Hs. unfold on_all_clients_disconnected.
    destruct (_ || _); [apply call_setMode_mode_broadcast|].
    cbn. repeat split; intros; intuition.
  - pair_of Hs. unfold on_door.
    destruct (String.eqb_spec (lightMode s) "ManualLocked") as [E | E];
      [|destruct level]; cbn;
      repeat split; intros; intuition (try discriminate; try congruence).
  - destruct (de_pending s); [|discriminate]. pair_of Hs. cbn.
    repeat split; intros; intuition.
  - destruct (doorFrameLoop s) as [c|]; [|discriminate]. pair_of Hs.
    unfold fade_frame. destruct (fade_done _ _); cbn;
      repeat split; intros; intuition (try discriminate; try congruence).
  - destruct (timeout s); [|discriminate]. pair_of Hs.
    destruct (tick_frame f s) as (E & _).
    repeat split; intros; try congruence.
    + no_mode_effect H tick_no_mode_effect.
    + no_mode_effect H tick_no_mode_effect.
    + no_mode_effect H tick_no_mode_effect.
    + no_mode_effect H tick_no_mode_effect.
  - pair_of Hs. rewrite onConnect_state.
    destruct (tick_frame f (with_timeout None s)) as (E & _).
    repeat split; intros; try (cbn in E; congruence).
    + no_mode_effect H onConnect_no_mode_effect.
    + no_mode_effect H onConnect_no_mode_effect.
    + no_mode_effect H onConnect_no_mode_effect.
    + no_mode_effect H onConnect_no_mode_effect.
  - pair_of Hs. cbn. repeat split; intros; intuition.
  - loop_mode_case s s' ConnectBegin es Hs.
  - loop_mode_case s s' (IntroWake i f) es Hs.
  - loop_mode_case s s' (OrphanTick f) es Hs.
Qed.

Lemma step_lastMode (s s' : State) (e : Event) (es : list Effect) :
  step s e = Some (s', es) ->
  lastMode s' = lastMode s \/ is_settable (lastMode s') = true.
Proof.
  intros Hs. destruct e; simpl in Hs.
  - pair_of Hs. rewrite on_rgb_set_state. right. now destruct isClient.
  - pair_of Hs. unfold on_mode_set. rewrite call_setMode_state.
    destruct (is_settable mode) eqn:E; [right; exact E | now left].
  - pair_of Hs. unfold on_all_clients_disconnected.
    destruct (_ || _); [|now left]. rewrite call_setMode_state. now right.
  - pair_of Hs. left. handler_cases; reflexivity.
  - destruct (de_pending s); [|discriminate]. pair_of Hs. now left.
  - destruct (doorFrameLoop s); [|discriminate]. pair_of Hs. left.
    handler_cases; reflexivity.
  - destruct (timeout s); [|discriminate]. pair_of Hs. left.
    now destruct (tick_frame f s) as (_ & -> & _).
  - pair_of Hs. left. rewrite onConnect_state.
    now destruct (tick_frame f (with_timeout None s)) as (_ & -> & _).
  - pair_of Hs. now left.
  - loop_frame s s' ConnectBegin es Hs. now left.
  - loop_frame s s' (IntroWake i f) es Hs. now left.
  - loop_frame s s' (OrphanTick f) es Hs. now left.
Qed.

Lemma lightMode_valid (s : State) :
  reachable s -> In (lastMode s) settable_modes -> In (lightMode s) all_modes.
Proof.
  intros Hr Hl. unfold all_modes. apply in_or_app.
  destruct (reachable_Inv s Hr) as [_ [E | E] _ _]; rewrite E.
  - now left.
  - right. simpl. auto.
Qed.

Lemma run_modes_valid (evs : list Event) :
  forall s s' es,
    reachable s -> In (lastMode s) settable_modes ->
    run s evs = Some (s', es) ->
    In (lastMode s') settable_modes /\
    (forall m, In (BroadcastMode m) es -> In m all_modes).
Proof.
  induction evs as [|e evs IH]; cbn [run]; intros s s' es Hr Hl Hrun.
  - pair_of Hrun. split; [assumption | intros m []].
  - destruct (step s e) as [[s1 es1]|] eqn:Hs; [|discriminate].
    destruct (run s1 evs) as [[s2 es2]|] eqn:Hrun2; [|discriminate].
    injection Hrun as <- <-.
    assert (Hr1 : reachable s1) by (eapply reach_step; eauto).
    assert (Hl1 : In (lastMode s1) settable_modes).
    { destruct (step_lastMode s s1 e es1 Hs) as [E | E];
        [now rewrite E | now apply is_settable_In]. }
    destruct (IH s1 s2 es2 Hr1 Hl1 Hrun2) as [Hl2 Hb2].
    split; [exact Hl2|]. intros m H. apply in_app_or in H as [H | H]; [|auto].
    destruct (step_mode_broadcast s s1 e es1 Hs) as (Hb & _).
    rewrite (Hb m H). now apply lightMode_valid.
Qed.

(** X11: when the mode of the settings is one of the seven settable
    modes, then after any run of events the current mode is one of the
    eight modes, [lastMode] and the mode of the settings are equal and
    settable (never [Door]), the current mode is [lastMode] or [Door],
    and every mode that was broadcast is one of the eight modes. *)
Theorem modes_stay_valid
    (settingsMode : ControllerMode) (evs : list Event) (s : State)
    (es : list Effect) :
  In settingsMode settable_modes ->
  run (init settingsMode) evs = Some (s, es) ->
  In (lightMode s) all_modes /\
  In (lastMode s) settable_modes /\ controllerMode s = lastMode s /\
  (lightMode s = lastMode s \/ lightMode s = "Door") /\
  (forall m, In (BroadcastMode m) es -> In m all_modes).
Proof.
  intros Hset Hrun.
  assert (Hr : reachable s)
    by exact (reachable_run evs _ _ _ (reach_init settingsMode) Hrun).
  destruct (run_modes_valid evs _ _ _ (reach_init settingsMode) Hset Hrun)
    as [Hl Hb].
  destruct (reachable_Inv s Hr) as [I1 I2 _ _].
  split; [now apply lightMode_valid|]. auto.
Qed.

Lemma modes_stay_valid_witness :
  exists s es,
    run (init "Pattern")
        [ModeSet "Door"; Door true; ModeSet "bogus"; Door false] = Some (s, es) /\
    In (lightMode s) all_modes /\
    In (lastMode s) settable_modes /\ controllerMode s = lastMode s /\
    (lightMode s = lastMode s \/ lightMode s = "Door") /\
    (forall m, In (BroadcastMode m) es -> In m all_modes).
Proof.
  eexists. eexists. split; [vm_compute; reflexivity|].
  apply (modes_stay_valid "Pattern"
           [ModeSet "Door"; Door true; ModeSet "bogus"; Door false]).
  - simpl. auto.
  - vm_compute. reflexivity.
Defined.

(** X12: whatever the event, every mode a step broadcasts is the
    current mode after the step, and a step that changes the current
    mode broadcasts the new one: clients are never told a stale mode
    and never miss a change. *)
Theorem mode_broadcast_is_current
    (s s' : State) (e : Event) (es : list Effect) :
  step s e = Some (s', es) ->
  (forall m, In (BroadcastMode m) es -> m = lightMode s') /\
  (lightMode s' <> lightMode s -> In (BroadcastMode (lightMode s')) es).
Proof.
  intros Hs. destruct (step_mode_broadcast s s' e es Hs) as (H1 & H2 & _). auto.
Qed.

Lemma mode_broadcast_is_current_witness :
  In (BroadcastMode "Door") (snd (on_door true (init "Audio"))).
Proof.
  apply (mode_broadcast_is_current (init "Audio") _ (Door true) _ eq_refl).
  discriminate.
Defined.

Lemma call_setMode_saves (mode : ControllerMode) (s : State) :
  lightMode (fst (call_setMode mode s)) <> lightMode s ->
  In SaveSettings (snd (call_setMode mode s)).
Proof.
  unfold call_setMode, setMode.
  destruct (is_settable mode); cbn; [|congruence].
  destruct (String.eqb_spec (lightMode s) mode) as [E | E]; cbn;
    [congruence | auto].
Qed.

(** Only a handler that calls [setMode] saves the settings, and it does
    when the mode changes. *)
Lemma step_save_settings (s s' : State) (e : Event) (es : list Effect) :
  step s e = Some (s', es) ->
  (In SaveSettings es -> calls_setMode e = true) /\
  (calls_setMode e = true -> lightMode s' <> lightMode s ->
   In SaveSettings es).
Proof.
  intros Hs. destruct (is_loop_event e) eqn:El.
  - split.
    + intros H.
      apply (step_loop_no_mode_effect s s' e es _ El Hs) in H. discriminate H.
    + intros H. destruct e; discriminate H || discriminate El.
  - destruct e; try discriminate El; simpl in Hs.
    + pair_of Hs. split; [reflexivity|]. intros _. unfold on_rgb_set.
      pose proof (call_setMode_saves
                    (if isClient then "Manual" else "AudioRaw") s) as H.
      destruct (call_setMode _ s) as [s1 es1]. exact H.
    + pair_of Hs. split; [reflexivity|]. intros _. apply call_setMode_saves.
    + pair_of Hs. split; [reflexivity|]. intros _.
      unfold on_all_clients_disconnected.
      destruct (_ || _); [apply call_setMode_saves | cbn; congruence].
    + pair_of Hs. split; [|discriminate]. handler_cases; intros H;
        simpl in H; intuition discriminate.
    + destruct (de_pending s); [|discriminate]. pair_of Hs.
      split; [intros [] | discriminate].
    + destruct (doorFrameLoop s); [|discriminate]. pair_of Hs.
      split; [|discriminate]. handler_cases; intros H;
        simpl in H; intuition discriminate.
Qed.

(** X13: the settings are saved by the handlers that call [setMode]
    ("rgb-set", "mode-set", "all-clients-disconnected") and by no other:
    such a step saves exactly when it changes the current mode, and
    what it saves is the new current mode, one of the seven settable
    modes.  The door handler, the debounce, the fade-back, the frames
    and the connection never save: neither entering [Door] nor the
    return from it by the last fade frame is persisted. *)
Theorem settings_saved_on_mode_change
    (s s' : State) (e : Event) (es : list Effect) :
  step s e = Some (s', es) ->
  (In SaveSettings es ->
   calls_setMode e = true /\
   lightMode s' <> lightMode s /\ controllerMode s' = lightMode s' /\
   In (lightMode s') settable_modes /\ lightMode s' <> "Door") /\
  (calls_setMode e = true -> lightMode s' <> lightMode s ->
   In SaveSettings es) /\
  (calls_setMode e = false -> ~ In SaveSettings es).
Proof.
  intros Hs.
  destruct (step_mode_broadcast s s' e es Hs) as (_ & _ & H).
  destruct (step_save_settings s s' e es Hs) as [Hc Hsave].
  split; [|split].
  - intros Hin. destruct (H Hin) as (H1 & H2 & H3).
    split; [exact (Hc Hin)|]. repeat split; auto.
    + now apply is_settable_In.
    + intros E. rewrite E in H3. discriminate H3.
  - exact Hsave.
  - intros He Hin. rewrite (Hc Hin) in He. discriminate He.
Qed.

Lemma settings_saved_on_mode_change_witness :
  controllerMode (fst (on_mode_set "Audio" (init "Manual"))) = "Audio" /\
  ~ In SaveSettings
      (snd (fade_frame (mkRGB 1 1 1)
              (with_lightMode "Door" (with_doorFrameLoop (Some (mkRGB 1 1 1))
                 (init "Manual"))))).
Proof.
  split.
  - refine (proj1 (proj2 (proj2 (proj1 (settings_saved_on_mode_change
              (init "Manual") _ (ModeSet "Audio") _ eq_refl) _)))).
    simpl. auto.
  - exact (proj2 (proj2 (settings_saved_on_mode_change
             (with_lightMode "Door" (with_doorFrameLoop (Some (mkRGB 1 1 1))
                (init "Manual")))
             _ FadeFrame _ eq_refl)) eq_refl).
Defined.

(** ** Commands against the door automation *)

(** X14: an explicit mode change wins over the door: after a successful
    [setMode], and after "rgb-set", no debounce is pending and no
    fade-back runs, and as long as the door does not close again the
    debounce cannot fire and no fade frame can run. *)
Theorem setMode_cancels_door_automation
    (mode : ControllerMode) (s s' : State) (es : list Effect) :
  setMode mode s = Ok s' es ->
  de_pending s' = false /\ doorFrameLoop s' = None /\
  (forall isClient red green blue,
     de_pending (fst (on_rgb_set isClient red green blue s)) = false /\
     doorFrameLoop (fst (on_rgb_set isClient red green blue s)) = None) /\
  forall evs s2 es2,
    ~ In (Door false) evs -> run s' evs = Some (s2, es2) ->
    ~ In DebounceFire evs /\ ~ In FadeFrame evs /\
    de_pending s2 = false /\ doorFrameLoop s2 = None.
Proof.
  intros H. apply setMode_Ok in H as (_ & -> & _).
  split; [reflexivity|]. split; [reflexivity|]. split.
  - intros. rewrite on_rgb_set_state. auto.
  - intros evs s2 es2 Hn Hrun.
    destruct (run_door_idle evs
                (de_cancel (clearDoorFrameLoop (with_modes mode s))) s2 es2
                eq_refl eq_refl Hn Hrun)
      as (H1 & H2 & H3 & H4).
    auto.
Qed.

Lemma setMode_cancels_door_automation_witness :
  de_pending (with_de_pending false (with_doorFrameLoop None
     (with_modes "Pattern" (de_fire (fst (on_door false (init "Manual"))))))) = false /\
  ~ In FadeFrame [Door true].
Proof.
  destruct (setMode_cancels_door_automation "Pattern"
              (de_fire (fst (on_door false (init "Manual")))) _ _ eq_refl)
    as (H1 & _ & _ & H2).
  split; [exact H1|].
  refine (proj1 (proj2 (H2 [Door true] _ _ _ eq_refl))).
  simpl. intros [H | H]; [discriminate H | exact H].
Defined.

(** ** The life of the tick loop *)





(** ** A command and the frame after it *)

Lemma on_rgb_set_no_write (isClient : bool) (red green blue : Z) (s : State) :
  device_writes (snd (on_rgb_set isClient red green blue s)) = [].
Proof.
  unfold on_rgb_set.
  pose proof (device_writes_call_setMode
                (if isClient then "Manual" else "AudioRaw") s) as [H _].
  now destruct (call_setMode _ s).
Qed.

(** X16: "rgb-set" writes nothing to the device itself; the frame that
    follows it does.  After that frame target and last-pushed colour
    both are the clamped colour of the command.  For a client (mode
    [Manual]) the frame writes the colour once when it differs from the
    colour pushed last and nothing when it is the same; for any other
    sender (mode [AudioRaw]) it writes the colour in both cases. *)
Theorem rgb_set_then_tick
    (isClient : bool) (red green blue : Z) (f : Frame) (s : State) :
  timeout s <> None ->
  exists s' es,
    run s [RgbSet isClient red green blue; Tick f] = Some (s', es) /\
    target s' = clamped red green blue /\
    lastRGB s' = clamped red green blue /\
    (isClient = false \/ clamped red green blue <> lastRGB s ->
     device_writes es =
       [SetRGB (clamp red 0 255) (clamp green 0 255) (clamp blue 0 255)]) /\
    (isClient = true -> clamped red green blue = lastRGB s ->
     device_writes es = []).
Proof.
  intros Ht. cbn [run step].
  pose proof (on_rgb_set_state isClient red green blue s) as Hs1.
  pose proof (on_rgb_set_no_write isClient red green blue s) as Hw1.
  destruct (on_rgb_set isClient red green blue s) as [s1 es1].
  cbn [fst snd] in Hs1, Hw1. subst s1.
  cbn [timeout with_target with_de_pending with_doorFrameLoop with_modes].
  destruct (timeout s); [|contradiction].
  destruct isClient.
  - rewrite tick_plain by (simpl; auto).
    cbn [target lastRGB with_target with_de_pending with_doorFrameLoop
         with_modes].
    destruct (rgb_eqb (clamped red green blue) (lastRGB s)) eqn:E;
      eexists; eexists; (split; [reflexivity|]);
      rewrite app_nil_r, !device_writes_app, Hw1, device_writes_lag_log.
    + apply rgb_eqb_eq in E. cbn. repeat split; auto.
      intros [H | H]; [discriminate H | contradiction].
    + cbn. repeat split; auto. intros _ H.
      apply rgb_eqb_eq in H. congruence.
  - rewrite tick_audio_raw by reflexivity.
    eexists. eexists. split; [reflexivity|].
    rewrite app_nil_r, !device_writes_app, Hw1, device_writes_lag_log.
    cbn. repeat split; auto. intros H. discriminate H.
Qed.

Lemma rgb_set_then_tick_witness :
  exists s' es,
    run (with_timeout (Some 50) (init "AutoPilot"))
        [RgbSet true 300 20 (-1); Tick (mkFrame black black true 1)]
      = Some (s', es) /\
    target s' = mkRGB 255 20 0 /\ lastRGB s' = mkRGB 255 20 0 /\
    device_writes es = [SetRGB 255 20 0].
Proof.
  assert (N : timeout (with_timeout (Some 50) (init "AutoPilot")) <> None)
    by discriminate.
  destruct (rgb_set_then_tick true 300 20 (-1) (mkFrame black black true 1)
              (with_timeout (Some 50) (init "AutoPilot")) N)
    as (s' & es & H1 & H2 & H3 & H4 & _).
  exists s', es. repeat split; try assumption.
  apply H4. right. discriminate.
Defined.

(** ** The door against the lock and against a running fade-back *)

(** X17: in a reachable state with a pending debounce or a running
    fade-back the mode is not [ManualLocked], so a door-open is never
    ignored there: it cancels the debounce and the interval, sets the
    mode [Door] without touching [lastMode], writes white to the
    device, and neither the debounce nor a fade frame can fire
    afterwards. *)
Theorem door_open_cancels_fade (s : State) :
  reachable s ->
  de_pending s = true \/ doorFrameLoop s <> None ->
  lightMode s <> "ManualLocked" /\
  on_door true s =
    (with_lightMode "Door" (with_de_pending false (with_doorFrameLoop None s)),
     [SetRGB 255 255 255; BroadcastMode "Door"; BroadcastRGB white]) /\
  step (fst (on_door true s)) DebounceFire = None /\
  step (fst (on_door true s)) FadeFrame = None.
Proof.
  intros Hr Hp.
  assert (Hn : lightMode s <> "ManualLocked").
  { intros E. destruct (inv_locked s (reachable_Inv s Hr) E) as [E1 E2].
    destruct Hp as [Hp | Hp]; congruence. }
  split; [exact Hn|]. unfold on_door.
  destruct (String.eqb_spec (lightMode s) "ManualLocked") as [E | _];
    [contradiction|].
  auto.
Qed.

Lemma door_open_cancels_fade_witness :
  step (fst (on_door true (de_fire (fst (on_door false (init "Audio"))))))
       FadeFrame = None.
Proof.
  assert (Hr : reachable (de_fire (fst (on_door false (init "Audio"))))).
  { apply (reach_step (fst (on_door false (init "Audio"))) DebounceFire _ []).
    - exact (reachable_handler (on_door false) (Door false) (init "Audio")
               (reach_init "Audio") eq_refl).
    - reflexivity. }
  refine (proj2 (proj2 (proj2 (door_open_cancels_fade _ Hr _)))).
  right. discriminate.
Defined.

Lemma step_locked (s s' : State) (e : Event) (es : list Effect) :
  lightMode s = "ManualLocked" -> de_pending s = false ->
  doorFrameLoop s = None -> is_client_command e = false ->
  step s e = Some (s', es) ->
  lightMode s' = "ManualLocked" /\ lastMode s' = lastMode s /\
  de_pending s' = false /\ doorFrameLoop s' = None /\
  e <> DebounceFire /\ e <> FadeFrame /\
  forall m, ~ In (BroadcastMode m) es.
Proof.
  intros Hm Hp Hl Hc Hs. destruct e; simpl in Hs; try discriminate Hc.
  - pair_of Hs. unfold on_all_clients_disconnected. rewrite Hm. cbn.
    repeat split; auto; discriminate.
  - pair_of Hs. unfold on_door. rewrite Hm. cbn.
    repeat split; auto; discriminate.
  - rewrite Hp in Hs. discriminate Hs.
  - rewrite Hl in Hs. discriminate Hs.
  - destruct (timeout s); [|discriminate]. pair_of Hs.
    destruct (tick_frame f s) as (-> & -> & _ & -> & ->).
    repeat split; auto; try discriminate.
    intros m H. apply tick_no_mode_effect in H. discriminate H.
  - pair_of Hs. rewrite onConnect_state.
    destruct (tick_frame f (with_timeout None s)) as (-> & -> & _ & -> & ->).
    repeat split; auto; try discriminate.
    intros m H. apply onConnect_no_mode_effect in H. discriminate H.
  - pair_of Hs. cbn. repeat split; auto; discriminate.
  - loop_frame s s' ConnectBegin es Hs.
    repeat split; try congruence; try discriminate.
    intros m H.
    apply (step_loop_no_mode_effect s s' ConnectBegin es _ eq_refl Hs) in H.
    discriminate H.
  - loop_frame s s' (IntroWake i f) es Hs.
    repeat split; try congruence; try discriminate.
    intros m H.
    apply (step_loop_no_mode_effect s s' (IntroWake i f) es _ eq_refl Hs) in H.
    discriminate H.
  - loop_frame s s' (OrphanTick f) es Hs.
    repeat split; try congruence; try discriminate.
    intros m H.
    apply (step_loop_no_mode_effect s s' (OrphanTick f) es _ eq_refl Hs) in H.
    discriminate H.
Qed.

(** X18: the lock holds against everything but a command.  From a
    reachable state in mode [ManualLocked], any run of events without
    "rgb-set" and "mode-set" (door edges, all clients leaving, frames,
    connects, disconnects) stays in [ManualLocked]: no door timer
    becomes pending, no fade frame runs and no mode is broadcast. *)
Theorem manual_locked_is_sticky (evs : list Event) :
  forall (s s' : State) (es : list Effect),
    reachable s -> lightMode s = "ManualLocked" ->
    forallb (fun e => negb (is_client_command e)) evs = true ->
    run s evs = Some (s', es) ->
    lightMode s' = "ManualLocked" /\ lastMode s' = lastMode s /\
    de_pending s' = false /\ doorFrameLoop s' = None /\
    ~ In DebounceFire evs /\ ~ In FadeFrame evs /\
    forall m, ~ In (BroadcastMode m) es.
Proof.
  intros s s' es Hr Hm.
  destruct (inv_locked s (reachable_Inv s Hr) Hm) as [Hp Hl]. clear Hr.
  revert s s' es Hm Hp Hl.
  induction evs as [|e evs IH]; cbn [run forallb]; intros s s' es Hm Hp Hl Hc Hrun.
  - pair_of Hrun. repeat split; auto.
  - apply andb_true_iff in Hc as [Hc1 Hc2]. apply negb_true_iff in Hc1.
    destruct (step s e) as [[s1 es1]|] eqn:Hs; [|discriminate].
    destruct (run s1 evs) as [[s2 es2]|] eqn:Hrun2; [|discriminate].
    injection Hrun as <- <-.
    destruct (step_locked s s1 e es1 Hm Hp Hl Hc1 Hs)
      as (Hm1 & Hl1 & Hp1 & Hd1 & Hn1 & Hn2 & Hb1).
    destruct (IH s1 s2 es2 Hm1 Hp1 Hd1 Hc2 Hrun2)
      as (Hm2 & Hl2 & Hp2 & Hd2 & Hn3 & Hn4 & Hb2).
    split; [exact Hm2|]. split; [congruence|].
    split; [exact Hp2|]. split; [exact Hd2|].
    split; [intros [E | E]; auto|]. split; [intros [E | E]; auto|].
    intros m H. apply in_app_or in H as [H | H];
      [exact (Hb1 m H) | exact (Hb2 m H)].
Qed.

Lemma manual_locked_is_sticky_witness :
  exists s' es,
    run (init "ManualLocked")
        [Door true; AllClientsDisconnected; Door false;
         Connect (mkFrame black black true 1)] = Some (s', es) /\
    lightMode s' = "ManualLocked" /\ de_pending s' = false.
Proof.
  eexists. eexists. split; [vm_compute; reflexivity|].
  destruct (manual_locked_is_sticky
              [Door true; AllClientsDisconnected; Door false;
               Connect (mkFrame black black true 1)]
              (init "ManualLocked") _ _ (reach_init "ManualLocked")
              eq_refl eq_refl ltac:(vm_compute; reflexivity))
    as (H1 & _ & H2 & _).
  exact (conj H1 H2).
Defined.

(** ** "all-clients-disconnected" *)

(** X19: when the last client leaves in mode [Manual] or [ManualForce],
    the mode becomes [AutoPilot]: it is broadcast and saved, and both
    door timers are cancelled.  In every other mode, [ManualLocked] and
    [Door] among them, the event changes nothing and has no effect;
    in particular a pending debounce or a running fade-back goes on. *)
Theorem all_clients_disconnected_falls_back (s : State) :
  (lightMode s = "Manual" \/ lightMode s = "ManualForce" ->
   on_all_clients_disconnected s =
     (with_de_pending false (with_doorFrameLoop None (with_modes "AutoPilot" s)),
      [BroadcastMode "AutoPilot"; SaveSettings])) /\
  (lightMode s <> "Manual" -> lightMode s <> "ManualForce" ->
   on_all_clients_disconnected s = (s, [])).
Proof.
  unfold on_all_clients_disconnected, call_setMode, setMode. split.
  - intros [E | E]; rewrite E; reflexivity.
  - intros N1 N2. apply String.eqb_neq in N1, N2. now rewrite N1, N2.
Qed.

Lemma all_clients_disconnected_falls_back_witness :
  lightMode (fst (on_all_clients_disconnected (init "ManualForce"))) = "AutoPilot" /\
  on_all_clients_disconnected (fst (on_door true (init "Manual"))) =
    (fst (on_door true (init "Manual")), []).
Proof.
  split.
  - rewrite (proj1 (all_clients_disconnected_falls_back (init "ManualForce"))).
    + reflexivity.
    + right. reflexivity.
  - apply (proj2 (all_clients_disconnected_falls_back
                    (fst (on_door true (init "Manual"))))); discriminate.
Defined.


(** ** The mode through a door episode *)

(** A step that does not call [setMode] keeps [lastMode]; the current
    mode stays, becomes [Door] or returns to [lastMode]. *)
Lemma step_door_modes (s s' : State) (e : Event) (es : list Effect) :
  calls_setMode e = false -> step s e = Some (s', es) ->
  lastMode s' = lastMode s /\
  (lightMode s' = lightMode s \/ lightMode s' = "Door" \/
   lightMode s' = lastMode s).
Proof.
  intros Hc Hs. destruct (is_loop_event e) eqn:El.
  - destruct (step_loop_frame s s' e es El Hs) as (E1 & E2 & _). auto.
  - destruct e; try discriminate El; try discriminate Hc; simpl in Hs.
    + pair_of Hs. handler_cases; auto.
    + destruct (de_pending s); [|discriminate]. pair_of Hs. auto.
    + destruct (doorFrameLoop s); [|discriminate]. pair_of Hs.
      handler_cases; auto.
Qed.

Lemma run_door_modes (evs : list Event) :
  forall (s s' : State) (es : list Effect) (m : ControllerMode),
    lastMode s = m -> lightMode s = "Door" \/ lightMode s = m ->
    forallb (fun e => negb (calls_setMode e)) evs = true ->
    run s evs = Some (s', es) ->
    lastMode s' = m /\ (lightMode s' = "Door" \/ lightMode s' = m) /\
    ~ In SaveSettings es /\
    (forall x, In (BroadcastMode x) es -> x = "Door" \/ x = m).
Proof.
  induction evs as [|e evs IH]; cbn [run forallb];
    intros s s' es m Hl Hm Hc Hrun.
  - pair_of Hrun. repeat split; auto. intros x [].
  - apply andb_true_iff in Hc as [Hc1 Hc2]. apply negb_true_iff in Hc1.
    destruct (step s e) as [[s1 es1]|] eqn:Hs; [|discriminate].
    destruct (run s1 evs) as [[s2 es2]|] eqn:Hr; [|discriminate].
    injection Hrun as <- <-.
    destruct (step_door_modes s s1 e es1 Hc1 Hs) as [Hl1 Hm1].
    assert (Hm1' : lightMode s1 = "Door" \/ lightMode s1 = m).
    { destruct Hm1 as [E | [E | E]]; rewrite E; auto. }
    destruct (IH s1 s2 es2 m (eq_trans Hl1 Hl) Hm1' Hc2 Hr)
      as (Hl2 & Hm2 & Hs2 & Hb2).
    destruct (step_mode_broadcast s s1 e es1 Hs) as (Hb1 & _).
    destruct (step_save_settings s s1 e es1 Hs) as [Hsv _].
    repeat split; auto.
    + intros H. apply in_app_or in H as [H | H]; [|auto].
      rewrite (Hsv H) in Hc1. discriminate Hc1.
    + intros x H. apply in_app_or in H as [H | H]; [|auto].
      rewrite (Hb1 x H). exact Hm1'.
Qed.

(** X4: the mode through a door episode, whatever the colours and the
    timing.  The door opens in a reachable state whose mode [m] is
    neither [ManualLocked] nor [Door]; whatever follows that is no
    command of a client and no "all-clients-disconnected" (door edges,
    the debounce, fade frames, frames, connects, disconnects),
    [lastMode] still is [m], the current mode is [Door] or [m], the
    settings have not been saved, and no mode but [Door] and [m] has
    been broadcast.  A fade frame that ends the animation there sets
    the mode to [m] and broadcasts it. *)
Theorem door_episode_restores_mode (evs : list Event) :
  forall (s s' : State) (es : list Effect),
    reachable s -> lightMode s <> "ManualLocked" -> lightMode s <> "Door" ->
    forallb (fun e => negb (calls_setMode e)) evs = true ->
    run s (Door true :: evs) = Some (s', es) ->
    lastMode s' = lightMode s /\
    (lightMode s' = "Door" \/ lightMode s' = lightMode s) /\
    ~ In SaveSettings es /\
    (forall x, In (BroadcastMode x) es -> x = "Door" \/ x = lightMode s) /\
    (forall c,
       doorFrameLoop (fst (fade_frame c s')) = None ->
       lightMode (fst (fade_frame c s')) = lightMode s /\
       In (BroadcastMode (lightMode s)) (snd (fade_frame c s'))).
Proof.
  intros s s' es Hreach Hlock Hdoor Hc Hrun.
  assert (Hm : lastMode s = lightMode s).
  { destruct (reachable_Inv s Hreach) as [_ [E | E] _ _]; congruence. }
  assert (Hc' : forallb (fun e => negb (calls_setMode e)) (Door true :: evs)
                = true) by exact Hc.
  destruct (run_door_modes (Door true :: evs) s s' es (lightMode s) Hm
              (or_intror eq_refl) Hc' Hrun) as (H1 & H2 & H3 & H4).
  repeat (split; [assumption|]).
  intros c Hend.
  destruct (fade_frame_completion c s' Hend) as [E1 E2].
  rewrite E1, E2, H1. split; [reflexivity | simpl; auto].
Qed.

Lemma door_episode_restores_mode_witness :
  exists s' es,
    run (init "Pattern") [Door true; Door false; DebounceFire; FadeFrame]
      = Some (s', es) /\
    lastMode s' = "Pattern" /\ lightMode s' = "Door".
Proof.
  eexists. eexists. split; [vm_compute; reflexivity|].
  destruct (door_episode_restores_mode [Door false; DebounceFire; FadeFrame]
              (init "Pattern") _ _ (reach_init "Pattern")
              ltac:(discriminate) ltac:(discriminate) eq_refl
              ltac:(vm_compute; reflexivity)) as (H1 & _).
  split; [exact H1 | reflexivity].
Defined.

(** X20: the fallback to [AutoPilot] looks at the current mode only.
    The door opens in mode [Manual] or [ManualForce]; while the mode is
    [Door], "all-clients-disconnected" changes nothing and has no
    effect, and whatever follows that is no command and no further
    "all-clients-disconnected", [lastMode] still is the client's mode,
    the current mode is [Door] or the client's mode, nothing is saved
    and [AutoPilot] is never broadcast: a fade frame that ends the
    animation restores the client's mode although no client is left. *)
Theorem door_shadows_client_fallback (pre post : list Event) :
  forall (s s1 s2 : State) (es1 es2 : list Effect),
    reachable s ->
    lightMode s = "Manual" \/ lightMode s = "ManualForce" ->
    forallb (fun e => negb (calls_setMode e)) pre = true ->
    run s (Door true :: pre) = Some (s1, es1) ->
    lightMode s1 = "Door" ->
    on_all_clients_disconnected s1 = (s1, []) /\
    (forallb (fun e => negb (calls_setMode e)) post = true ->
     run s1 (AllClientsDisconnected :: post) = Some (s2, es2) ->
     lastMode s2 = lightMode s /\
     (lightMode s2 = "Door" \/ lightMode s2 = lightMode s) /\
     ~ In SaveSettings es2 /\ ~ In (BroadcastMode "AutoPilot") es2 /\
     (forall c,
        doorFrameLoop (fst (fade_frame c s2)) = None ->
        lightMode (fst (fade_frame c s2)) = lightMode s)).
Proof.
  intros s s1 s2 es1 es2 Hreach Hmode Hpre Hrun1 Hd.
  assert (Hm : lastMode s = lightMode s).
  { destruct (reachable_Inv s Hreach) as [_ [E | E] _ _]; [congruence|].
    destruct Hmode as [E' | E']; rewrite E' in E; discriminate E. }
  assert (Hpre' : forallb (fun e => negb (calls_setMode e)) (Door true :: pre)
                  = true) by exact Hpre.
  destruct (run_door_modes (Door true :: pre) s s1 es1 (lightMode s) Hm
              (or_intror eq_refl) Hpre' Hrun1) as (Hl1 & _).
  assert (Hno : on_all_clients_disconnected s1 = (s1, [])).
  { unfold on_all_clients_disconnected. now rewrite Hd. }
  split; [exact Hno|]. intros Hpost Hrun2.
  cbn [run step] in Hrun2. rewrite Hno in Hrun2.
  destruct (run s1 post) as [[s3 es3]|] eqn:Hr; [|discriminate].
  injection Hrun2 as <- <-. cbn [app].
  destruct (run_door_modes post s1 s3 es3 (lightMode s) Hl1
              (or_introl Hd) Hpost Hr) as (H1 & H2 & H3 & H4).
  repeat (split; [assumption|]). split.
  - intros H. destruct (H4 _ H) as [E | E]; [discriminate E|].
    destruct Hmode as [E' | E']; rewrite E' in E; discriminate E.
  - intros c Hend. destruct (fade_frame_completion c s3 Hend) as [E1 _].
    now rewrite E1.
Qed.

Lemma door_shadows_client_fallback_witness :
  exists s2 es2,
    run (fst (on_door true (init "ManualForce")))
        [AllClientsDisconnected; Door false; DebounceFire] = Some (s2, es2) /\
    lastMode s2 = "ManualForce" /\ ~ In (BroadcastMode "AutoPilot") es2.
Proof.
  eexists. eexists. split; [vm_compute; reflexivity|].
  refine (let H := proj2 (door_shadows_client_fallback []
                           [Door false; DebounceFire]
                           (init "ManualForce") _ _ _ _
                           (reach_init "ManualForce")
                           (or_intror eq_refl) eq_refl eq_refl eq_refl)
                     eq_refl _ in
          conj (proj1 H) (proj1 (proj2 (proj2 (proj2 H))))).
  vm_compute. reflexivity.
Defined.
